(** * ai-server: resume parsing service and chat bot

    A shallow embedding of [server.py] and [telegram_bot.py]:
    the text operations the code applies to model output and file names,
    the JSON documents it reads and writes, the per-user memory and
    history files, and the request handlers built from them.

    Conventions.
    - A Python [str] is a list of code points ([N]); a literal is written
      [lit "..."], a line feed [NL] and a double quote [QUOTE].
    - Files opened in text mode hold a [str]; the UTF-8 layer between the
      text and the bytes on disk is not modelled.
    - The libraries behind the code (PDF, DOCX and OCR readers, the
      language model client, the chat transport, the clock) are variables
      of the sections that use them. *)

From stdpp Require Import gmap list strings.
From Stdlib Require Import ZArith NArith Lia DecimalString DecimalZ DecimalPos.

Local Open Scope N_scope.

(** ** Python text *)

Module PyStr.

Definition str := list N.

Definition lit (s : string) : str :=
  map Ascii.N_of_ascii (String.list_ascii_of_string s).
Arguments lit s%_string.

Definition NL : N := 10.
Definition QUOTE : N := 34.
Definition BACKSLASH : N := 92.

(** [str.isspace] of one code point: the white space that [str.strip()]
    removes. *)
Definition isspace (c : N) : bool :=
  ((9 <=? c) && (c <=? 13)) || ((28 <=? c) && (c <=? 32))
  || (c =? 133) || (c =? 160) || (c =? 5760)
  || ((8192 <=? c) && (c <=? 8202))
  || (c =? 8232) || (c =? 8233) || (c =? 8239) || (c =? 8287)
  || (c =? 12288).

Definition mem (c : N) (chars : str) : bool := existsb (N.eqb c) chars.

Fixpoint lstrip_by (p : N -> bool) (s : str) : str :=
  match s with
  | [] => []
  | c :: r => if p c then lstrip_by p r else s
  end.

Fixpoint rstrip_by (p : N -> bool) (s : str) : str :=
  match s with
  | [] => []
  | c :: r =>
      match rstrip_by p r with
      | [] => if p c then [] else [c]
      | r' => c :: r'
      end
  end.

Definition strip_by (p : N -> bool) (s : str) : str :=
  rstrip_by p (lstrip_by p s).

(** [s.strip()] *)
Definition strip (s : str) : str := strip_by isspace s.

(** [s.strip(chars)] *)
Definition strip_chars (chars s : str) : str :=
  strip_by (fun c => mem c chars) s.

(** [s.startswith(prefix)] *)
Fixpoint startswith (s prefix : str) {struct prefix} : bool :=
  match prefix, s with
  | [], _ => true
  | _ :: _, [] => false
  | p :: prefix', c :: s' => (c =? p) && startswith s' prefix'
  end.

(** [s.endswith(suffix)] *)
Definition endswith (s suffix : str) : bool :=
  startswith (rev s) (rev suffix).

(** [sub in s] *)
Fixpoint contains (s sub : str) : bool :=
  startswith s sub ||
  match s with
  | [] => false
  | _ :: r => contains r sub
  end.

(** [s.replace(old, new, 1)]: the leftmost occurrence only. *)
Fixpoint replace_first (old new s : str) : str :=
  match s with
  | [] => if startswith [] old then new else []
  | c :: r =>
      if startswith s old then new ++ drop (length old) s
      else c :: replace_first old new r
  end.

(** [s.split(sep, 1)] for an [s] that holds [sep]: the text before the
    leftmost occurrence and the text after it; [None] when [sep] does not
    occur (Python then returns the one-element list [[s]]). *)
Fixpoint split_first (sep s : str) : option (str * str) :=
  match s with
  | [] => if startswith [] sep then Some ([], []) else None
  | c :: r =>
      if startswith s sep then Some ([], drop (length sep) s)
      else match split_first sep r with
           | Some (a, b) => Some (c :: a, b)
           | None => None
           end
  end.

(** [sep.join(parts)] *)
Fixpoint join (sep : str) (parts : list str) : str :=
  match parts with
  | [] => []
  | [p] => p
  | p :: rest => p ++ sep ++ join sep rest
  end.

(** [str.lower] of one code point, for the code points up to U+00FF.
    Above that range the table is not reproduced and the code point is
    kept; no letter of the suffixes tested by [extract_text] is the
    lower case of such a code point. *)
Definition lower_char (c : N) : N :=
  if ((65 <=? c) && (c <=? 90))
     || ((192 <=? c) && (c <=? 222) && negb (c =? 215))
  then c + 32 else c.

Definition lower (s : str) : str := map lower_char s.

(** [str(n)] for an [int] *)
Definition str_of_int (z : Z) : str :=
  lit (NilZero.string_of_int (Z.to_int z)).

End PyStr.
Export PyStr.

(** ** JSON documents: [json.loads] and [json.dump]

    The decoder follows the standard library's scanner
    ([json/scanner.py], [json/decoder.py]) and the encoder its
    [_make_iterencode] with [indent=4] and [ensure_ascii=False].
    A [float] is carried by the lexeme it was read from (floating point
    is outside the model) and every decoding error is the one outcome
    [Malformed] (a [JSONDecodeError]; its message and position are not
    kept).  Limits of the interpreter (recursion depth, digits of an
    [int]) are not modelled. *)

Module Json.

#[local] Set Warnings "-register-all".

Inductive json : Type :=
  | JNull
  | JBool (b : bool)
  | JInt (z : Z)
  | JFloat (lexeme : str)
  | JStr (s : str)
  | JList (items : list json)
  | JDict (pairs : list (str * json)).

(** A [dict] keeps its keys in insertion order; assigning to a key that
    is present replaces the value in place. *)
Fixpoint dict_set (k : str) (v : json) (d : list (str * json))
  : list (str * json) :=
  match d with
  | [] => [(k, v)]
  | (k', v') :: r =>
      if decide (k = k') then (k, v) :: r else (k', v') :: dict_set k v r
  end.

(** [dict(pairs)] *)
Definition dict_of_pairs (pairs : list (str * json)) : list (str * json) :=
  fold_left (fun d kv => dict_set kv.1 kv.2 d) pairs [].

Inductive outcome (A : Type) : Type :=
  | Parsed (a : A)
  | Malformed
  | Exhausted.
Arguments Parsed {A} a.
Arguments Malformed {A}.
Arguments Exhausted {A}.

Definition obind {A B} (o : outcome A) (k : A -> outcome B) : outcome B :=
  match o with
  | Parsed a => k a
  | Malformed => Malformed
  | Exhausted => Exhausted
  end.

Notation "'let*' p := o 'in' k" := (obind o (fun p => k))
  (at level 10, p pattern, o at level 200, k at level 200).

Definition is_ws (c : N) : bool :=
  (c =? 32) || (c =? 9) || (c =? 10) || (c =? 13).

Definition skip_ws (s : str) : str := lstrip_by is_ws s.

Definition is_digit (c : N) : bool := (48 <=? c) && (c <=? 57).

Definition hex_digit (c : N) : option N :=
  if is_digit c then Some (c - 48)
  else if (97 <=? c) && (c <=? 102) then Some (c - 87)
  else if (65 <=? c) && (c <=? 70) then Some (c - 55)
  else None.

Definition hex4 (a b c d : N) : option N :=
  match hex_digit a, hex_digit b, hex_digit c, hex_digit d with
  | Some x, Some y, Some z, Some w => Some (((x * 16 + y) * 16 + z) * 16 + w)
  | _, _, _, _ => None
  end.

(** The table [BACKSLASH] of [json/decoder.py]. *)
Definition unescape (e : N) : option N :=
  if e =? 34 then Some 34
  else if e =? 92 then Some 92
  else if e =? 47 then Some 47
  else if e =? 98 then Some 8
  else if e =? 102 then Some 12
  else if e =? 110 then Some 10
  else if e =? 114 then Some 13
  else if e =? 116 then Some 9
  else None.

Definition cons_char (c : N) (o : outcome (str * str)) : outcome (str * str) :=
  let* (t, r) := o in Parsed (c :: t, r).

(** [scanstring(s, end)] in strict mode, from the code point after the
    opening quote: the decoded text and what follows the closing quote. *)
Fixpoint scanstring (s : str) : outcome (str * str) :=
  match s with
  | [] => Malformed
  | c :: r =>
      if c =? QUOTE then Parsed ([], r)
      else if c =? BACKSLASH then
        match r with
        | [] => Malformed
        | e :: r1 =>
            if e =? 117 then
              match r1 with
              | h1 :: h2 :: h3 :: h4 :: r2 =>
                  match hex4 h1 h2 h3 h4 with
                  | None => Malformed
                  | Some uni =>
                      if (0xd800 <=? uni) && (uni <=? 0xdbff) then
                        match r2 with
                        | b :: u :: l1 :: l2 :: l3 :: l4 :: r3 =>
                            if (b =? BACKSLASH) && (u =? 117) then
                              match hex4 l1 l2 l3 l4 with
                              | None => Malformed
                              | Some uni2 =>
                                  if (0xdc00 <=? uni2) && (uni2 <=? 0xdfff)
                                  then cons_char
                                         (0x10000 + N.lor (N.shiftl (uni - 0xd800) 10)
                                                          (uni2 - 0xdc00))
                                         (scanstring r3)
                                  else cons_char uni (scanstring r2)
                              end
                            else cons_char uni (scanstring r2)
                        | _ => cons_char uni (scanstring r2)
                        end
                      else cons_char uni (scanstring r2)
                  end
              | _ => Malformed
              end
            else
              match unescape e with
              | Some ch => cons_char ch (scanstring r1)
              | None => Malformed
              end
        end
      else if c <? 32 then Malformed
      else cons_char c (scanstring r)
  end.

Fixpoint span_digits (s : str) : str * str :=
  match s with
  | [] => ([], [])
  | c :: r =>
      if is_digit c then let (ds, r') := span_digits r in (c :: ds, r')
      else ([], s)
  end.

(** The three groups of [NUMBER_RE]: an optional minus sign and either
    a zero or a run of digits not starting with zero; an optional dot
    with at least one digit; an optional exponent mark, optional sign and
    at least one digit.  The digits are the ASCII ones, as in the C
    scanner. *)
Definition int_part (s : str) : option (str * str) :=
  match s with
  | [] => None
  | c :: r =>
      if c =? 48 then Some ([c], r)
      else if is_digit c then let (ds, r') := span_digits r in Some (c :: ds, r')
      else None
  end.

Definition frac_part (s : str) : str * str :=
  match s with
  | [] => ([], s)
  | c :: r =>
      if c =? 46 then
        match span_digits r with
        | ([], _) => ([], s)
        | (ds, r') => (c :: ds, r')
        end
      else ([], s)
  end.

Definition exp_part (s : str) : str * str :=
  match s with
  | [] => ([], s)
  | c :: r =>
      if (c =? 101) || (c =? 69) then
        let (sign, r1) :=
          match r with
          | sg :: r1 => if (sg =? 45) || (sg =? 43) then ([sg], r1) else ([], r)
          | [] => ([], r)
          end in
        match span_digits r1 with
        | ([], _) => ([], s)
        | (ds, r') => (c :: sign ++ ds, r')
        end
      else ([], s)
  end.

Definition digits_value (ds : str) : Z :=
  fold_left (fun acc d => (acc * 10 + Z.of_N (d - 48))%Z) ds 0%Z.

Definition match_number (s : str) : option (json * str) :=
  let (sign, s1) :=
    match s with
    | c :: r => if c =? 45 then ([c], r) else ([], s)
    | [] => ([], s)
    end in
  match int_part s1 with
  | None => None
  | Some (integer, s2) =>
      let (frac, s3) := frac_part s2 in
      let (exp, s4) := exp_part s3 in
      match frac ++ exp with
      | [] => Some (JInt (match sign with
                          | [] => digits_value integer
                          | _ => - digits_value integer
                          end%Z), s4)
      | _ => Some (JFloat (sign ++ integer ++ frac ++ exp), s4)
      end
  end.

(** The loop of [JSONArray], entered at the first value. *)
Fixpoint array_items (scan_once : str -> outcome (json * str)) (n : nat)
    (s : str) : outcome (list json * str) :=
  match n with
  | O => Exhausted
  | S n' =>
      let* (value, r) := scan_once s in
      match skip_ws r with
      | [] => Malformed
      | c :: r1 =>
          if c =? 93 then Parsed ([value], r1)
          else if c =? 44 then
            let* (values, r2) := array_items scan_once n' (skip_ws r1) in
            Parsed (value :: values, r2)
          else Malformed
      end
  end.

Definition JSONArray (scan_once : str -> outcome (json * str)) (n : nat)
    (s : str) : outcome (json * str) :=
  match skip_ws s with
  | [] => Malformed
  | c :: r =>
      if c =? 93 then Parsed (JList [], r)
      else let* (values, r') := array_items scan_once n (c :: r) in
           Parsed (JList values, r')
  end.

(** The loop of [JSONObject], entered after the opening quote of a key. *)
Fixpoint object_items (scan_once : str -> outcome (json * str)) (n : nat)
    (s : str) : outcome (list (str * json) * str) :=
  match n with
  | O => Exhausted
  | S n' =>
      let* (key, r) := scanstring s in
      match skip_ws r with
      | [] => Malformed
      | c :: r1 =>
          if c =? 58 then
            let* (value, r2) := scan_once (skip_ws r1) in
            match skip_ws r2 with
            | [] => Malformed
            | d :: r3 =>
                if d =? 125 then Parsed ([(key, value)], r3)
                else if d =? 44 then
                  match skip_ws r3 with
                  | [] => Malformed
                  | q :: r4 =>
                      if q =? QUOTE then
                        let* (pairs, r5) := object_items scan_once n' r4 in
                        Parsed ((key, value) :: pairs, r5)
                      else Malformed
                  end
                else Malformed
            end
          else Malformed
      end
  end.

Definition JSONObject (scan_once : str -> outcome (json * str)) (n : nat)
    (s : str) : outcome (json * str) :=
  match skip_ws s with
  | [] => Malformed
  | c :: r =>
      if c =? 125 then Parsed (JDict [], r)
      else if c =? QUOTE then
        let* (pairs, r') := object_items scan_once n r in
        Parsed (JDict (dict_of_pairs pairs), r')
      else Malformed
  end.

(** [_scan_once(string, idx)]; [fuel] bounds the nesting of calls. *)
Fixpoint scan_once (fuel : nat) (s : str) : outcome (json * str) :=
  match fuel with
  | O => Exhausted
  | S fuel' =>
      match s with
      | [] => Malformed
      | c :: r =>
          if c =? QUOTE then let* (t, r') := scanstring r in Parsed (JStr t, r')
          else if c =? 123 then JSONObject (scan_once fuel') fuel' r
          else if c =? 91 then JSONArray (scan_once fuel') fuel' r
          else if startswith s (lit "null") then Parsed (JNull, drop 4 s)
          else if startswith s (lit "true") then Parsed (JBool true, drop 4 s)
          else if startswith s (lit "false") then Parsed (JBool false, drop 5 s)
          else
            match match_number s with
            | Some (v, r') => Parsed (v, r')
            | None =>
                if startswith s (lit "NaN") then Parsed (JFloat (lit "NaN"), drop 3 s)
                else if startswith s (lit "Infinity")
                then Parsed (JFloat (lit "Infinity"), drop 8 s)
                else if startswith s (lit "-Infinity")
                then Parsed (JFloat (lit "-Infinity"), drop 9 s)
                else Malformed
            end
      end
  end.

(** [json.loads(s)] for a [str]: no byte order mark, one value, then only
    white space. *)
Definition json_loads (s : str) : outcome json :=
  if startswith s [0xfeff] then Malformed
  else
    let* (obj, r) := scan_once (S (length s)) (skip_ws s) in
    match skip_ws r with
    | [] => Parsed obj
    | _ :: _ => Malformed
    end.

(** The table [ESCAPE_DCT] of [json/encoder.py]. *)
Definition hex_char (d : N) : N := if d <? 10 then 48 + d else 87 + d.

Definition escape_char (c : N) : str :=
  if c =? 92 then [BACKSLASH; BACKSLASH]
  else if c =? 34 then [BACKSLASH; QUOTE]
  else if c =? 8 then [BACKSLASH; 98]
  else if c =? 12 then [BACKSLASH; 102]
  else if c =? 10 then [BACKSLASH; 110]
  else if c =? 13 then [BACKSLASH; 114]
  else if c =? 9 then [BACKSLASH; 116]
  else if c <? 32
  then [BACKSLASH; 117; 48; 48; hex_char (c / 16); hex_char (c mod 16)]
  else [c].

Definition escape (s : str) : str := flat_map escape_char s.

Definition encode_basestring (s : str) : str := QUOTE :: escape s ++ [QUOTE].

Definition newline_indent (level : nat) : str :=
  NL :: repeat 32 (4 * level).

(** [_iterencode(o, level)] joined into one text. *)
Fixpoint dumps_at (level : nat) (o : json) : str :=
  match o with
  | JNull => lit "null"
  | JBool b => if b then lit "true" else lit "false"
  | JInt z => str_of_int z
  | JFloat lexeme => lexeme
  | JStr s => encode_basestring s
  | JList [] => lit "[]"
  | JList items =>
      lit "[" ++ newline_indent (S level)
      ++ join (lit "," ++ newline_indent (S level))
              (map (dumps_at (S level)) items)
      ++ newline_indent level ++ lit "]"
  | JDict [] => lit "{}"
  | JDict pairs =>
      lit "{" ++ newline_indent (S level)
      ++ join (lit "," ++ newline_indent (S level))
              (map (fun kv => encode_basestring kv.1 ++ lit ": "
                              ++ dumps_at (S level) kv.2) pairs)
      ++ newline_indent level ++ lit "}"
  end.

(** [json.dumps(o, indent=4, ensure_ascii=False)], the text that
    [json.dump(o, f, indent=4, ensure_ascii=False)] writes to [f]. *)
Definition json_dumps (o : json) : str := dumps_at 0 o.

(** The documents the bot writes: text, lists and dicts with distinct
    keys, [null] and the booleans; no numbers. *)
Fixpoint textual (o : json) : bool :=
  match o with
  | JNull | JBool _ | JStr _ => true
  | JInt _ | JFloat _ => false
  | JList items => forallb textual items
  | JDict pairs =>
      bool_decide (NoDup pairs.*1) && forallb (fun kv => textual kv.2) pairs
  end.

End Json.
Export Json.

(** ** Exceptions and effects

    A computation either returns or raises, and threads a state: the
    log of library calls for the resume service, the files, clock and
    outbox for the bot.  What a computation did before it raised is
    kept. *)

Module Effects.

Inductive exn_class : Type :=
  | JSONDecodeError
  | RecursionError
  | AttributeError
  | TypeError
  | IndexError
  | ValueError
  | LibraryError.

(** An exception: its class and [str(e)]. *)
Record exn : Type := Exn { exn_kind : exn_class; exn_str : str }.

Inductive result (A : Type) : Type :=
  | Ok (a : A)
  | Raise (e : exn).
Arguments Ok {A} a.
Arguments Raise {A} e.

Definition M (S A : Type) : Type := S -> result A * S.

#[global] Instance M_ret {S} : MRet (M S) := fun A a s => (Ok a, s).

#[global] Instance M_bind {S} : MBind (M S) := fun A B k m s =>
  match m s with
  | (Ok a, s') => k a s'
  | (Raise e, s') => (Raise e, s')
  end.

Definition raise {S A} (e : exn) : M S A := fun s => (Raise e, s).

Definition lift {S A} (r : result A) : M S A := fun s => (r, s).

(** [try: body except Exception as e: handler(e)] *)
Definition try_except {S A} (body : M S A) (handler : exn -> M S A) : M S A :=
  fun s =>
    match body s with
    | (Ok a, s') => (Ok a, s')
    | (Raise e, s') => handler e s'
    end.

Definition modify {S} (f : S -> S) : M S unit := fun s => (Ok tt, f s).

Definition gets {S A} (f : S -> A) : M S A := fun s => (Ok (f s), s).

(** [json.loads] as Python code sees it.  The decoder's bound on
    nesting is never reached ([json_loads_total]). *)
Definition loads (s : str) : result json :=
  match json_loads s with
  | Parsed v => Ok v
  | Malformed => Raise (Exn JSONDecodeError [])
  | Exhausted => Raise (Exn RecursionError [])
  end.

End Effects.
Export Effects.

(** ** The resume service, [server.py] *)

Module Server.

Definition bytes := list Byte.byte.

(** A werkzeug [FileStorage]: the client's file name and the payload
    that [read()] returns. *)
Record FileStorage : Type := { filename : str; payload : bytes }.

(** Calls that leave the process, in the order they were made. *)
Inductive call : Type :=
  | PdfOpen (b : bytes)
  | DocxOpen (b : bytes)
  | ImageOcr (b : bytes)
  | GenerateContent (contents : list str)
  | Print (line : str).

Definition trace := list call.

(** Lines 132 to 137 of [parse_resume_with_gemini]: the text handed to
    [json.loads]. *)
Definition clean_output (text : str) : str :=
  let raw_output := strip text in
  if startswith raw_output (lit "```") then
    let raw_output := strip_chars (lit "`") raw_output in
    strip (replace_first (lit "json") [] raw_output)
  else raw_output.

Definition error_record (raw_output : str) : json :=
  JDict [(lit "error", JStr (lit "JSON parsing failed"));
         (lit "raw_output", JStr raw_output)].

(** Lines 132 to 145 of [parse_resume_with_gemini], from the text of the
    model's response on: the spec's [normalizeResumeJson].  The bare
    [except:] catches whatever [json.loads] raises. *)
Definition normalizeResumeJson (text : str) : result json :=
  let raw_output := clean_output text in
  match loads raw_output with
  | Ok parsed => Ok parsed
  | Raise _ => Ok (error_record raw_output)
  end.

Section Service.

(** [pdfplumber.open(...)] and [page.extract_text()] of each page:
    [None] for a page without text. *)
Variable pdfplumber_open : bytes -> result (list (option str)).
(** [Document(...)] and the [text] of each paragraph. *)
Variable docx_Document : bytes -> result (list str).
(** [Image.open(...)] and [pytesseract.image_to_string]. *)
Variable image_to_string : bytes -> result str.
(** [client.models.generate_content(...)] and the [text] of its
    response, [None] when the response carries no text. *)
Variable generate_content : list str -> result (option str).
(** The two fixed prompts of [parse_resume_with_gemini]. *)
Variables system_prompt schema_prompt : str.

Definition library {A} (c : call) (r : result A) : M trace A :=
  fun t => (r, t ++ [c]).

Definition extract_text_from_pdf (file_bytes : bytes) : M trace str :=
  pages ← library (PdfOpen file_bytes) (pdfplumber_open file_bytes);
  let text := map (fun page_text => default [] page_text) pages in
  mret (strip (join [NL] text)).

Definition extract_text_from_docx (file_bytes : bytes) : M trace str :=
  paragraphs ← library (DocxOpen file_bytes) (docx_Document file_bytes);
  mret (strip (join [NL] paragraphs)).

Definition extract_text_from_image (file_bytes : bytes) : M trace str :=
  text ← library (ImageOcr file_bytes) (image_to_string file_bytes);
  mret (strip text).

Definition extract_text (file_storage : FileStorage) : M trace str :=
  let filename := lower (filename file_storage) in
  let file_bytes := payload file_storage in
  if endswith filename (lit ".pdf") then extract_text_from_pdf file_bytes
  else if endswith filename (lit ".docx") then extract_text_from_docx file_bytes
  else if endswith filename (lit ".png") || endswith filename (lit ".jpg")
          || endswith filename (lit ".jpeg")
  then extract_text_from_image file_bytes
  else extract_text_from_pdf file_bytes.

Definition user_prompt (raw_text : str) : str :=
  [NL] ++ lit "Here is the resume text:" ++ [NL; NL; QUOTE; QUOTE; QUOTE]
  ++ raw_text ++ [QUOTE; QUOTE; QUOTE; NL; NL]
  ++ lit "Return ONLY JSON. " ++ [NL]
  ++ lit "Fill extras.raw_text_excerpt with a short excerpt." ++ [NL].

Definition parse_resume_with_gemini (raw_text : str) : M trace json :=
  let contents := [system_prompt; schema_prompt; user_prompt raw_text] in
  text ← library (GenerateContent contents) (generate_content contents);
  match text with
  | None =>
      raise (Exn AttributeError
                 (lit "'NoneType' object has no attribute 'strip'"))
  | Some text => lift (normalizeResumeJson text)
  end.

(** A Flask request: the uploaded files by form field. *)
Record request : Type := { files : list (str * FileStorage) }.

Fixpoint field (name : str) (l : list (str * FileStorage))
  : option FileStorage :=
  match l with
  | [] => None
  | (k, v) :: r => if decide (k = name) then Some v else field name r
  end.

Definition error_body (msg : str) : json := JDict [(lit "error", JStr msg)].

(** The route [POST /extract-resume]: the JSON body and the status. *)
Definition extract_resume (req : request) : M trace (json * Z) :=
  match field (lit "file") (files req) with
  | None => mret (error_body (lit "No file in request"), 400%Z)
  | Some file =>
      if decide (filename file = []) then
        mret (error_body (lit "No selected file"), 400%Z)
      else
        try_except
          (raw_text ← extract_text file;
           match strip raw_text with
           | [] => mret (error_body (lit "Could not extract text"), 400%Z)
           | _ :: _ =>
               parsed ← parse_resume_with_gemini raw_text;
               mret (parsed, 200%Z)
           end)
          (fun e =>
             _ ← library (Print (lit "Error: " ++ exn_str e)) (Ok tt);
             mret (JDict [(lit "error", JStr (lit "Server error"));
                          (lit "details", JStr (exn_str e))], 500%Z))
  end.

End Service.

End Server.

(** ** The chat bot, [telegram_bot.py] *)

Module Bot.

(** [datetime.now()]: a date and time of day. *)
Record datetime : Type := {
  year : N; month : N; day : N;
  hour : N; minute : N; second : N; microsecond : N
}.

Definition decimal (n : N) : str := lit (NilZero.string_of_uint (N.to_uint n)).

(** Two digits, padded with a zero: [%m], [%d], [%H], [%M], [%S]. *)
Definition pad2 (n : N) : str := if n <? 10 then 48 :: decimal n else decimal n.

(** [strftime("%Y-%m-%d %H:%M:%S")].  [%Y] is the year in decimal, four
    digits for the years from 1000 on. *)
Definition strftime (t : datetime) : str :=
  decimal (year t) ++ lit "-" ++ pad2 (month t) ++ lit "-" ++ pad2 (day t)
  ++ lit " " ++ pad2 (hour t) ++ lit ":" ++ pad2 (minute t) ++ lit ":"
  ++ pad2 (second t).

(** What the handlers act on: the files of the working directory by
    path, the clock (its successive readings), and the texts handed to
    the transport for the user. *)
Record world : Type := {
  files : gmap str str;
  clock : nat -> datetime;
  ticks : nat;
  outbox : list str
}.

Definition set_files (f : gmap str str -> gmap str str) (w : world) : world :=
  {| files := f (files w); clock := clock w; ticks := ticks w;
     outbox := outbox w |}.

(** [os.path.exists(path)] *)
Definition path_exists (path : str) : M world bool :=
  gets (fun w => bool_decide (is_Some (files w !! path))).

(** [open(path, "r", encoding="utf-8")] and reading the whole file. *)
Definition read_text (path : str) : M world str :=
  fun w =>
    match files w !! path with
    | Some content => (Ok content, w)
    | None => (Raise (Exn LibraryError (lit "No such file or directory")), w)
    end.

(** [open(path, "w", encoding="utf-8")] and writing [content]. *)
Definition write_text (path content : str) : M world unit :=
  modify (set_files (fun fs => <[path := content]> fs)).

(** [datetime.now()] *)
Definition now : M world datetime :=
  fun w =>
    (Ok (clock w (ticks w)),
     {| files := files w; clock := clock w; ticks := S (ticks w);
        outbox := outbox w |}).

Definition user_memory_path (user_id : Z) : str :=
  lit "memory_" ++ str_of_int user_id ++ lit ".json".

Definition user_history_path (user_id : Z) : str :=
  lit "history_" ++ str_of_int user_id ++ lit ".json".

Definition load_memory (user_id : Z) : M world json :=
  let path := user_memory_path user_id in
  present ← path_exists path;
  if (present : bool) then
    content ← read_text path;
    lift (loads content)
  else mret (JDict []).

Definition save_memory (user_id : Z) (memory : json) : M world unit :=
  write_text (user_memory_path user_id) (json_dumps memory).

Definition history_entry (timestamp sender message : str) : json :=
  JDict [(lit "timestamp", JStr timestamp);
         (lit "sender", JStr sender);
         (lit "message", JStr message)].

(** [history.append(entry)]: only a list has [append]. *)
Definition append (history entry : json) : result json :=
  match history with
  | JList l => Ok (JList (l ++ [entry]))
  | _ => Raise (Exn AttributeError (lit "object has no attribute 'append'"))
  end.

Definition save_history (user_id : Z) (sender message : str) : M world unit :=
  t ← now;
  let entry := history_entry (strftime t) sender message in
  let path := user_history_path user_id in
  present ← path_exists path;
  history ← (if (present : bool) then
               content ← read_text path;
               match loads content with
               | Ok history => mret history
               | Raise e =>
                   match exn_kind e with
                   | JSONDecodeError => mret (JList [])
                   | _ => raise e
                   end
               end
             else mret (JList []));
  history ← lift (append history entry);
  write_text path (json_dumps history).

(** The response of the language model as the client library reports
    it: the aggregated [text], the [parts] of the reply and the
    [candidates], each possibly [None]. *)
Record Part : Type := { part_text : option str }.
Record Content : Type := { content_parts : option (list Part) }.
Record Candidate : Type := { content : option Content }.
Record Response : Type := {
  text : option str;
  parts : option (list Part);
  candidates : option (list Candidate)
}.

(** [for part in parts: if part.text: ai_text += part.text] *)
Fixpoint add_parts (ai_text : str) (ps : list Part) : str :=
  match ps with
  | [] => ai_text
  | part :: r =>
      match part_text part with
      | Some (c :: t) => add_parts (ai_text ++ c :: t) r
      | _ => add_parts ai_text r
      end
  end.

(** [for cand in candidates: for part in cand.content.parts: ...] *)
Fixpoint add_candidates (ai_text : str) (cs : list Candidate) : result str :=
  match cs with
  | [] => Ok ai_text
  | cand :: r =>
      match content cand with
      | None =>
          Raise (Exn AttributeError
                     (lit "'NoneType' object has no attribute 'parts'"))
      | Some c =>
          match content_parts c with
          | None => Raise (Exn TypeError (lit "'NoneType' object is not iterable"))
          | Some ps => add_candidates (add_parts ai_text ps) r
          end
      end
  end.

Definition apology : str :=
  lit "I couldn't understand this image properly, sorry.".

(** Lines 209 to 219 of [handle_photo]: the reply text of the image
    flow. *)
Definition photo_reply_text (response : Response) : str :=
  let ai_text := default [] (text response) in
  match ai_text with
  | _ :: _ => ai_text
  | [] =>
      match candidates response with
      | None => apology
      | Some cs =>
          match add_candidates ai_text cs with
          | Ok ai_text => ai_text
          | Raise _ => apology
          end
      end
  end.

(** Lines 156 to 159 of [chat]: the reply text of the text flow;
    iterating over [None] raises. *)
Definition chat_reply_text (reply : Response) : result str :=
  match parts reply with
  | None => Raise (Exn TypeError (lit "'NoneType' object is not iterable"))
  | Some ps => Ok (add_parts [] ps)
  end.

Record PhotoSize : Type := { file_id : str }.

(** An incoming update: who sent it, the text of the message, and for a
    photo message its sizes and optional caption. *)
Record Update : Type := {
  from_user_id : Z;
  message_text : str;
  caption : option str;
  photo : list PhotoSize
}.

Section Handlers.

(** The transport: [reply_text] delivers the text or raises. *)
Variable deliver : str -> result unit.
(** [client.chats.create(...).send_message(...)] *)
Variable send_message : str -> result Response.
(** [photo.get_file()] and [download_to_memory]. *)
Variable download : PhotoSize -> result (list Byte.byte).
(** [client.models.generate_content(contents=[image_part, prompt])] *)
Variable generate_content : list Byte.byte -> str -> result Response.
(** [str(v)] of a decoded value that is not a [str], in an f-string. *)
Variable py_str : json -> str.

Definition reply_text (t : str) : M world unit :=
  fun w =>
    (deliver t,
     {| files := files w; clock := clock w; ticks := ticks w;
        outbox := outbox w ++ [t] |}).

Definition stop (update : Update) : M world unit :=
  reply_text (lit "Chat stopped. Goodbye! " ++ [128075]).

Definition clear (update : Update) : M world unit :=
  let user_id := from_user_id update in
  let path := user_history_path user_id in
  _ ← write_text path (lit "[]");
  reply_text ([129529] ++ lit " Chat history cleared!").

Definition memory_cmd (update : Update) : M world unit :=
  let user_id := from_user_id update in
  memory ← load_memory user_id;
  reply_text ([129504] ++ lit " Memory:" ++ [NL] ++ json_dumps memory).

(** [memory[key] = value] *)
Definition setitem (memory : json) (key : str) (value : json) : result json :=
  match memory with
  | JDict d => Ok (JDict (dict_set key value d))
  | _ => Raise (Exn TypeError (lit "object does not support item assignment"))
  end.

Definition remember (update : Update) : M world unit :=
  let user_id := from_user_id update in
  let cmd := replace_first (lit "/remember ") [] (message_text update) in
  if negb (contains cmd (lit "=")) then
    reply_text (lit "Use format: /remember key=value")
  else
    kv ← lift (match split_first (lit "=") cmd with
               | Some kv => Ok kv
               | None => Raise (Exn ValueError
                                    (lit "not enough values to unpack"))
               end);
    let key := strip kv.1 in
    let value := strip kv.2 in
    memory ← load_memory user_id;
    memory ← lift (setitem memory key (JStr value));
    _ ← save_memory user_id memory;
    reply_text ([10004] ++ lit " Remembered: " ++ key ++ lit " = " ++ value).

Definition format_value (v : json) : str :=
  match v with
  | JStr s => s
  | _ => py_str v
  end.

(** ["\n".join([f"{k}: {v}" for k, v in memory.items()])] *)
Definition memory_text (memory : json) : result str :=
  match memory with
  | JDict d =>
      Ok (join [NL] (map (fun kv => kv.1 ++ lit ": " ++ format_value kv.2) d))
  | _ => Raise (Exn AttributeError (lit "object has no attribute 'items'"))
  end.

Definition with_memory (head memory_text : str) : str :=
  head ++ [NL; NL] ++ lit "(Memory:" ++ [NL] ++ memory_text ++ lit ")".

Definition chat (update : Update) : M world unit :=
  let user_id := from_user_id update in
  let user_msg := message_text update in
  if decide (lower user_msg = lit "/stop") then stop update
  else
    memory ← load_memory user_id;
    memory_text ← lift (memory_text memory);
    let enhanced_input := with_memory user_msg memory_text in
    reply ← lift (send_message enhanced_input);
    ai_text ← lift (chat_reply_text reply);
    _ ← reply_text ai_text;
    _ ← save_history user_id (lit "You") user_msg;
    save_history user_id (lit "AI") ai_text.

Definition handle_photo (update : Update) : M world unit :=
  let user_id := from_user_id update in
  let caption := default [] (caption update) in
  memory ← load_memory user_id;
  memory_text ← lift (memory_text memory);
  let prompt :=
    match strip caption with
    | _ :: _ => with_memory caption memory_text
    | [] => with_memory (lit "Describe this image in detail.") memory_text
    end in
  photo ← lift (match last (photo update) with
                | Some p => Ok p
                | None => Raise (Exn IndexError (lit "tuple index out of range"))
                end);
  image_bytes ← lift (download photo);
  response ← lift (generate_content image_bytes prompt);
  let ai_text := photo_reply_text response in
  _ ← reply_text ai_text;
  _ ← save_history user_id (lit "You (image)")
        (match caption with _ :: _ => caption | [] => lit "[Image]" end);
  save_history user_id (lit "AI") ai_text.

Definition start (update : Update) : M world unit :=
  reply_text
    ([129302] ++ lit " Hello! I'm your Gemini-powered AI bot." ++ [NL]
     ++ lit "You can:" ++ [NL]
     ++ [8226] ++ lit " Send text " ++ [8594] ++ lit " I reply" ++ [NL]
     ++ [8226] ++ lit " Send an image (with or without caption) " ++ [8594]
     ++ lit " I understand it" ++ [NL; NL]
     ++ lit "Commands:" ++ [NL]
     ++ lit "/remember key=value " ++ [8211] ++ lit " Save memory" ++ [NL]
     ++ lit "/memory " ++ [8211] ++ lit " Show memory" ++ [NL]
     ++ lit "/clear " ++ [8211] ++ lit " Clear chat history" ++ [NL]
     ++ lit "/stop " ++ [8211] ++ lit " End chat").

(** The handlers registered with the application. *)
Inductive handler : Type :=
  | Start | Stop | Clear | MemoryCmd | Remember | Chat | HandlePhoto.

Definition dispatch (h : handler) (update : Update) : M world unit :=
  match h with
  | Start => start update
  | Stop => stop update
  | Clear => clear update
  | MemoryCmd => memory_cmd update
  | Remember => remember update
  | Chat => chat update
  | HandlePhoto => handle_photo update
  end.

(** Updates handled one after the other; a handler that raises is
    logged by the framework and the next update is handled. *)
Fixpoint serve (updates : list (handler * Update)) (w : world) : world :=
  match updates with
  | [] => w
  | (h, update) :: rest => serve rest (dispatch h update w).2
  end.

End Handlers.

End Bot.

(** ** The specification's wording, for comparison with the code *)

Module Spec.

Import Bot.

Definition BACKTICK : N := 96.

(** Step (2) of [normalizeResumeJson] as the specification words it:
    every backtick is removed, then one leading [json] tag, and nothing
    else. *)
Definition without_backticks (s : str) : str :=
  List.filter (fun c => negb (c =? BACKTICK)) s.

Definition without_leading_tag (s : str) : str :=
  if startswith s (lit "json") then drop 4 s else s.

Definition spec_clean_output (text : str) : str :=
  let t := strip text in
  if startswith t (lit "```") then without_leading_tag (without_backticks t)
  else t.

(** [s] ends with [suffix]. *)
Definition has_suffix (s suffix : str) : Prop := exists stem, s = stem ++ suffix.

(** A call to one of the three readers on the payload [b]. *)
Definition extraction_of (b : Server.bytes) (c : Server.call) : Prop :=
  c = Server.PdfOpen b \/ c = Server.DocxOpen b \/ c = Server.ImageOcr b.

(** A document [J] inside a fence with the [json] tag, each on a line of
    its own. *)
Definition fenced (J : str) : str :=
  lit "```json" ++ [NL] ++ J ++ [NL] ++ lit "```".

(** [J] is the text of a JSON object. *)
Definition json_object_text (J : str) : Prop :=
  exists d, json_loads J = Parsed (JDict d).

(** The text of every text-bearing part, in order. *)
Definition part_texts (ps : list Part) : str :=
  concat (map (fun p => default [] (part_text p)) ps).

(** The parts of every candidate, in order; [None] when a candidate has
    no content or a content has no parts. *)
Fixpoint all_parts (cs : list Candidate) : option (list Part) :=
  match cs with
  | [] => Some []
  | cand :: r =>
      match content cand, all_parts r with
      | Some c, Some rest =>
          match content_parts c with
          | Some ps => Some (ps ++ rest)
          | None => None
          end
      | _, _ => None
      end
  end.

(** [normalizeChatText] as the specification words it: the aggregated
    text when it is not empty, otherwise the text of every text-bearing
    part, and the apology when that is still empty. *)
Definition spec_normalizeChatText (response : Response) : str :=
  match text response with
  | Some (c :: t) => c :: t
  | _ =>
      match part_texts (default [] (candidates response ≫= all_parts)) with
      | [] => apology
      | joined => joined
      end
  end.

(** The three senders of a history entry and how the log spells them. *)
Inductive sender : Type := user | user_with_image | assistant.

Definition sender_label (s : sender) : str :=
  match s with
  | user => lit "You"
  | user_with_image => lit "You (image)"
  | assistant => lit "AI"
  end.

(** A timestamp at second precision: [dddd-dd-dd dd:dd:dd]. *)
Definition is_timestamp (ts : str) : bool :=
  match ts with
  | [y1; y2; y3; y4; d1; m1; m2; d2; a1; a2; sp; h1; h2; c1; n1; n2; c2; s1; s2] =>
      forallb is_digit [y1; y2; y3; y4; m1; m2; a1; a2; h1; h2; n1; n2; s1; s2]
      && (d1 =? 45) && (d2 =? 45) && (sp =? 32) && (c1 =? 58) && (c2 =? 58)
  | _ => false
  end.

Definition well_formed_entry (e : json) : Prop :=
  exists ts s message,
    e = history_entry ts (sender_label s) message /\ is_timestamp ts = true.

(** A reading of the clock: a four-digit year and fields in range. *)
Definition datetime_ok (t : datetime) : Prop :=
  1000 <= year t <= 9999 /\ 1 <= month t <= 12 /\ 1 <= day t <= 31
  /\ hour t < 24 /\ minute t < 60 /\ second t < 60.

(** The history of a user as [save_history] reads it: empty when there
    is no record or the record is not JSON; [None] when the record is
    JSON but not a list. *)
Definition stored_history (w : world) (user_id : Z) : option (list json) :=
  match files w !! user_history_path user_id with
  | None => Some []
  | Some content =>
      match json_loads content with
      | Parsed (JList l) => Some l
      | Malformed => Some []
      | _ => None
      end
  end.


End Spec.

(** ** Notions used to state the properties *)

Module Shapes.

Import Bot Spec.

(** *** Induction over documents, through lists and dicts *)

Section json_induction.
Variable P : json -> Prop.
Hypothesis Hnull : P JNull.
Hypothesis Hbool : forall b, P (JBool b).
Hypothesis Hint : forall z, P (JInt z).
Hypothesis Hfloat : forall x, P (JFloat x).
Hypothesis Hstr : forall s, P (JStr s).
Hypothesis Hlist : forall l, Forall P l -> P (JList l).
Hypothesis Hdict : forall d, Forall (fun kv => P kv.2) d -> P (JDict d).

Fixpoint json_nested_ind (o : json) : P o :=
  match o with
  | JNull => Hnull
  | JBool b => Hbool b
  | JInt z => Hint z
  | JFloat x => Hfloat x
  | JStr s => Hstr s
  | JList l =>
      Hlist l ((fix go (l : list json) : Forall P l :=
                  match l with
                  | [] => List.Forall_nil P
                  | x :: r => @List.Forall_cons _ P x r (json_nested_ind x) (go r)
                  end) l)
  | JDict d =>
      Hdict d ((fix go (d : list (str * json)) : Forall (fun kv => P kv.2) d :=
                  match d with
                  | [] => List.Forall_nil _
                  | (k, v) :: r =>
                      @List.Forall_cons _ (fun kv => P kv.2) (k, v) r
                                        (json_nested_ind v) (go r)
                  end) d)
  end.
End json_induction.

(** *** The decoder *)

(** [scan] consumes input whenever it succeeds. *)
Definition shrinks (scan : str -> outcome (json * str)) : Prop :=
  forall s v r, scan s = Parsed (v, r) -> (length r < length s)%nat.

(** [scan] does not reach its bound on inputs shorter than [m]. *)
Definition runs (scan : str -> outcome (json * str)) (m : nat) : Prop :=
  forall s, (length s < m)%nat -> scan s <> Exhausted.

(** The first code point of an encoded document. *)
Definition opener (c : N) : Prop :=
  c = 34 \/ c = 91 \/ c = 123 \/ c = 110 \/ c = 116 \/ c = 102.

(** What the encoder writes after the first item of a list, and after
    the first pair of a dict, up to the closing bracket. *)
Fixpoint items_tail (level : nat) (l : list json) (rest : str) : str :=
  match l with
  | [] => newline_indent level ++ 93 :: rest
  | y :: l' =>
      44 :: newline_indent (S level) ++ dumps_at (S level) y
      ++ items_tail level l' rest
  end.

Fixpoint pairs_tail (level : nat) (d : list (str * json)) (rest : str) : str :=
  match d with
  | [] => newline_indent level ++ 125 :: rest
  | (k, y) :: d' =>
      44 :: newline_indent (S level) ++ QUOTE :: escape k
      ++ QUOTE :: 58 :: 32 :: dumps_at (S level) y ++ pairs_tail level d' rest
  end.

Definition pair_text (level : nat) (kv : str * json) : str :=
  encode_basestring kv.1 ++ lit ": " ++ dumps_at (S level) kv.2.

(** Decoding what the encoder wrote, at any level and before any text. *)
Definition reads_back (o : json) : Prop :=
  forall level fuel rest,
    (length (dumps_at level o ++ rest) < fuel)%nat ->
    scan_once fuel (dumps_at level o ++ rest) = Parsed (o, rest).

(** *** The resume service *)

Definition backticks (s : str) : Prop := Forall (fun c => c = BACKTICK) s.

(** *** The bot *)

(** The world after one reading of the clock. *)
Definition ticked (w : world) : world :=
  {| files := files w; clock := clock w; ticks := S (ticks w);
     outbox := outbox w |}.

(** Every reading of the clock is a date with a four-digit year. *)
Definition clock_ok (w : world) : Prop := forall n, datetime_ok (clock w n).

(** Every history log that decodes to a list holds well-formed
    entries. *)
Definition history_ok (w : world) : Prop :=
  forall user_id content l,
    files w !! user_history_path user_id = Some content ->
    json_loads content = Parsed (JList l) ->
    Forall well_formed_entry l.

(** A computation keeps the clock and the well-formedness of the
    logs, whether it returns or raises. *)
Definition preserves {A} (m : M world A) : Prop :=
  forall w, clock_ok w -> history_ok w ->
            clock (m w).2 = clock w /\ history_ok (m w).2.

Definition two_digits (s : str) : bool :=
  match s with
  | [a; b] => is_digit a && is_digit b
  | _ => false
  end.

Definition four_digits (s : str) : bool :=
  match s with
  | [a; b; c; d] => is_digit a && is_digit b && is_digit c && is_digit d
  | _ => false
  end.

End Shapes.

(** ** Sample readers, replies and worlds, to run the code on *)

Module Examples.

Import Spec.

(** A text between double quotes. *)
Definition quoted (s : str) : str := QUOTE :: s ++ [QUOTE].

(** A PDF reader that rejects the payload, a DOCX reader that finds two
    paragraphs, an OCR engine that finds nothing. *)
Definition unreadable_pdf : Server.bytes -> result (list (option str)) :=
  fun _ => Raise (Exn LibraryError
                      (lit "No /Root object! - Is this really a PDF?")).

Definition jane_docx : Server.bytes -> result (list str) :=
  fun _ => Ok [lit "Jane Doe"; lit "jane@example.com"].

Definition blank_image : Server.bytes -> result str := fun _ => Ok [].

Definition jane_json : str :=
  lit "{" ++ quoted (lit "name") ++ lit ":" ++ quoted (lit "Jane Doe")
  ++ lit "," ++ quoted (lit "email") ++ lit ":"
  ++ quoted (lit "jane@example.com") ++ lit "}".

(** A model that answers with [jane_json] inside a fence. *)
Definition jane_model : list str -> result (option str) :=
  fun _ => Ok (Some (fenced jane_json)).

Definition role_prompt : str := lit "You are an expert resume parser.".
Definition format_prompt : str := lit "Use this JSON format:".

Definition upload (name : str) : Server.request :=
  {| Server.files :=
       [(lit "file", {| Server.filename := name; Server.payload := [] |})] |}.

(** A document with backticks inside a text. *)
Definition shell_json : str :=
  lit "{" ++ quoted (lit "cmd") ++ lit ": " ++ quoted (lit "`ls`") ++ lit "}".

(** The ninth of March 2025, a few seconds after noon. *)
Definition noon (n : nat) : Bot.datetime :=
  {| Bot.year := 2025; Bot.month := 3; Bot.day := 9;
     Bot.hour := 12; Bot.minute := 0; Bot.second := N.of_nat n mod 60;
     Bot.microsecond := 0 |}.

(** A working directory without files. *)
Definition fresh : Bot.world :=
  {| Bot.files := ∅; Bot.clock := noon; Bot.ticks := 0; Bot.outbox := [] |}.

(** The same with a memory record for user 7 that is not JSON. *)
Definition corrupt : Bot.world :=
  {| Bot.files := {[ Bot.user_memory_path 7 := lit "{not json" ]};
     Bot.clock := noon; Bot.ticks := 0; Bot.outbox := [] |}.

Definition delivered : str -> result unit := fun _ => Ok tt.

(** A response without any text, and one that says hello. *)
Definition silent : Bot.Response :=
  {| Bot.text := None;
     Bot.parts := Some [{| Bot.part_text := None |}];
     Bot.candidates :=
       Some [{| Bot.content :=
                  Some {| Bot.content_parts :=
                            Some [{| Bot.part_text := None |}] |} |}] |}.

Definition hello : Bot.Response :=
  {| Bot.text := Some (lit "Hello!");
     Bot.parts := Some [{| Bot.part_text := Some (lit "Hello!") |}];
     Bot.candidates :=
       Some [{| Bot.content :=
                  Some {| Bot.content_parts :=
                            Some [{| Bot.part_text := Some (lit "Hello!") |}] |} |}] |}.

Definition says_hello : str -> result Bot.Response := fun _ => Ok hello.
Definition says_nothing : str -> result Bot.Response := fun _ => Ok silent.

Definition downloaded : Bot.PhotoSize -> result (list Byte.byte) :=
  fun _ => Ok [].

Definition sees_hello : list Byte.byte -> str -> result Bot.Response :=
  fun _ _ => Ok hello.
Definition sees_nothing : list Byte.byte -> str -> result Bot.Response :=
  fun _ _ => Ok silent.

Definition no_repr : json -> str := fun _ => [].

Definition text_update (user_id : Z) (t : str) : Bot.Update :=
  {| Bot.from_user_id := user_id; Bot.message_text := t;
     Bot.caption := None; Bot.photo := [] |}.

Definition photo_update (user_id : Z) : Bot.Update :=
  {| Bot.from_user_id := user_id; Bot.message_text := [];
     Bot.caption := None; Bot.photo := [{| Bot.file_id := lit "AgACAgQ" |}] |}.

End Examples.

(** ** Further notions: what is on record and what a computation writes *)

Module Records.

Import Bot Spec.



(** A computation changes no file outside [paths]. *)
Definition touches {A} (paths : list str) (m : M world A) : Prop :=
  forall w path, path ∉ paths -> files (m w).2 !! path = files w !! path.

(** A text of white space only, and a page whose text is missing or
    such a text. *)
Definition blank (s : str) : Prop := Forall (fun c => isspace c = true) s.

Definition blank_page (p : option str) : Prop := blank (default [] p).

(** A transport that delivers nothing. *)
Definition transport_down (deliver : str -> result unit) : Prop :=
  forall t, exists e, deliver t = Raise e.

(** The world with one more text handed to the transport. *)
Definition replied (t : str) (w : world) : world :=
  {| files := files w; clock := clock w; ticks := ticks w;
     outbox := outbox w ++ [t] |}.



End Records.

(** ** More sample readers, transports and worlds *)

Module Scenarios.

Import Spec Examples.

(** A scanned PDF: one page without text and one of white space. *)
Definition scanned_pdf : Server.bytes -> result (list (option str)) :=
  fun _ => Ok [None; Some (lit "  " ++ [NL] ++ lit " ")].

(** A model that is unavailable, and one whose response has no text. *)
Definition failing_model : list str -> result (option str) :=
  fun _ => Raise (Exn LibraryError (lit "503 UNAVAILABLE"))  .

Definition mute_model : list str -> result (option str) := fun _ => Ok None.

(** A document that names its own format. *)
Definition format_before : str :=
  lit "{" ++ quoted (lit "format") ++ lit ": " ++ [QUOTE].

Definition format_after : str := [QUOTE] ++ lit "}".

(** A transport that times out. *)
Definition offline : str -> result unit :=
  fun _ => Raise (Exn LibraryError (lit "Timed out")).

(** A working directory where the history of user 7 is an object and
    the memory of user 7 a list. *)
Definition misshapen : Bot.world :=
  {| Bot.files := {[ Bot.user_history_path 7 := lit "{}";
                     Bot.user_memory_path 7 := lit "[]" ]};
     Bot.clock := noon; Bot.ticks := 0; Bot.outbox := [] |}.

End Scenarios.

(** * Properties *)

(** ** Text operations *)

Module PyStrFacts.

Section Strip.
Variable p : N -> bool.

Lemma lstrip_by_app_all (l s : str) :
  Forall (fun c => p c = true) l -> lstrip_by p (l ++ s) = lstrip_by p s.
Proof. induction 1 as [|c l Hc _ IH]; simpl; [done|]. by rewrite Hc. Qed.

Lemma lstrip_by_keep (c : N) (s : str) :
  p c = false -> lstrip_by p (c :: s) = c :: s.
Proof. intros H. simpl. by rewrite H. Qed.

Lemma lstrip_by_app (s r : str) :
  lstrip_by p (s ++ r) =
  match lstrip_by p s with [] => lstrip_by p r | t => t ++ r end.
Proof.
  induction s as [|c s IH]; simpl; [by destruct (lstrip_by p r)|].
  destruct (p c); [exact IH | done].
Qed.

Lemma lstrip_by_split (s : str) :
  exists l, s = l ++ lstrip_by p s /\ Forall (fun c => p c = true) l.
Proof.
  induction s as [|c s (l & Hl & Hall)]; simpl.
  - by exists [].
  - destruct (p c) eqn:Hc.
    + exists (c :: l). split; [by rewrite Hl at 1 | by constructor].
    + by exists [].
Qed.

Lemma lstrip_by_head (s : str) (c : N) :
  head (lstrip_by p s) = Some c -> p c = false.
Proof.
  induction s as [|d s IH]; simpl; [done|].
  destruct (p d) eqn:Hd; [exact IH|]. simpl. by intros [= <-].
Qed.

Lemma rstrip_by_all (r : str) :
  Forall (fun c => p c = true) r -> rstrip_by p r = [].
Proof. induction 1 as [|c r Hc _ IH]; simpl; [done|]. by rewrite IH, Hc. Qed.

Lemma rstrip_by_app_all (s r : str) :
  Forall (fun c => p c = true) r -> rstrip_by p (s ++ r) = rstrip_by p s.
Proof.
  intros Hr. induction s as [|c s IH]; simpl.
  - by apply rstrip_by_all.
  - by rewrite IH.
Qed.

Lemma rstrip_by_snoc_keep (s : str) (c : N) :
  p c = false -> rstrip_by p (s ++ [c]) = s ++ [c].
Proof.
  intros Hc. induction s as [|d s IH]; simpl.
  - by rewrite Hc.
  - rewrite IH. by destruct (s ++ [c]) eqn:E; [destruct s|].
Qed.

Lemma rstrip_by_split (s : str) :
  exists r, s = rstrip_by p s ++ r /\ Forall (fun c => p c = true) r.
Proof.
  induction s as [|c s (r & Hr & Hall)]; simpl.
  - by exists [].
  - destruct (rstrip_by p s) as [|d t] eqn:E.
    + simpl in Hr. subst r. destruct (p c) eqn:Hc.
      * exists (c :: s). split; [done | by constructor].
      * by exists s.
    + exists r. split; [by rewrite Hr at 1 | done].
Qed.

Lemma rstrip_by_last (s : str) (c : N) :
  last (rstrip_by p s) = Some c -> p c = false.
Proof.
  induction s as [|d s IH]; simpl; [done|].
  destruct (rstrip_by p s) as [|e t] eqn:E.
  - destruct (p d) eqn:Hd; simpl; [done | by intros [= <-]].
  - intros H. apply IH. by rewrite last_cons in H; destruct (last (e :: t)) eqn:L;
      [| by rewrite last_None in L].
Qed.

Lemma rstrip_by_head (s : str) (c : N) :
  p c = false -> head s = Some c -> head (rstrip_by p s) = Some c.
Proof.
  destruct s as [|d s]; simpl; [done|]. intros Hc [= ->].
  destruct (rstrip_by p s); [by rewrite Hc | done].
Qed.

Lemma rstrip_by_fix (s : str) :
  (forall c, last s = Some c -> p c = false) -> rstrip_by p s = s.
Proof.
  intros H. destruct s as [|c s _] using rev_ind; [done|].
  apply rstrip_by_snoc_keep, H. by rewrite last_snoc.
Qed.

Lemma lstrip_by_fix (s : str) :
  (forall c, head s = Some c -> p c = false) -> lstrip_by p s = s.
Proof. destruct s as [|c s]; [done|]. intros H. apply lstrip_by_keep, H. done. Qed.

Lemma strip_by_head (s : str) (c : N) :
  head (strip_by p s) = Some c -> p c = false.
Proof.
  unfold strip_by. destruct (lstrip_by p s) as [|d t] eqn:E; [done|].
  assert (Hd : p d = false) by (apply (lstrip_by_head s); by rewrite E).
  rewrite (rstrip_by_head (d :: t) d Hd eq_refl). by intros [= <-].
Qed.

Lemma strip_by_last (s : str) (c : N) :
  last (strip_by p s) = Some c -> p c = false.
Proof. apply rstrip_by_last. Qed.

Lemma strip_by_fix (s : str) :
  (forall c, head s = Some c -> p c = false) ->
  (forall c, last s = Some c -> p c = false) -> strip_by p s = s.
Proof. intros Hh Hl. unfold strip_by. by rewrite lstrip_by_fix, rstrip_by_fix. Qed.

Lemma strip_by_idemp (s : str) : strip_by p (strip_by p s) = strip_by p s.
Proof. apply strip_by_fix; [apply strip_by_head | apply strip_by_last]. Qed.

Lemma strip_by_split (s : str) :
  exists l r, s = l ++ strip_by p s ++ r
    /\ Forall (fun c => p c = true) l /\ Forall (fun c => p c = true) r.
Proof.
  destruct (lstrip_by_split s) as (l & Hl & Hall).
  destruct (rstrip_by_split (lstrip_by p s)) as (r & Hr & Halr).
  exists l, r. split; [|done]. unfold strip_by. by rewrite <- Hr.
Qed.

Lemma strip_by_app_all (l s r : str) :
  Forall (fun c => p c = true) l -> Forall (fun c => p c = true) r ->
  strip_by p (l ++ s ++ r) = strip_by p s.
Proof.
  intros Hl Hr. unfold strip_by. rewrite lstrip_by_app_all by done.
  rewrite lstrip_by_app. destruct (lstrip_by p s) as [|c t] eqn:E.
  - destruct (lstrip_by_split r) as (l' & Hl' & _).
    destruct (rstrip_by_split (lstrip_by p r)) as (r' & Hr' & _).
    rewrite rstrip_by_all; [done|].
    rewrite Hl' in Hr. by apply Forall_app in Hr as [_ ?].
  - by apply rstrip_by_app_all.
Qed.

End Strip.

Lemma startswith_app (s t : str) : startswith (s ++ t) s = true.
Proof. induction s as [|c s IH]; simpl; [done|]. by rewrite N.eqb_refl. Qed.

Lemma startswith_spec (s prefix : str) :
  startswith s prefix = true <-> exists t, s = prefix ++ t.
Proof.
  revert s. induction prefix as [|c prefix IH]; intros s; simpl.
  - split; [by exists s | done].
  - destruct s as [|d s]; simpl.
    + split; [done | by intros [t ?]].
    + rewrite andb_true_iff, N.eqb_eq, IH. split.
      * intros [-> [t ->]]. by exists t.
      * intros [t [= -> ->]]. eauto.
Qed.

Lemma replace_first_head (old new rest : str) :
  replace_first old new (old ++ rest) = new ++ rest.
Proof.
  destruct old as [|o old]; simpl.
  - destruct rest; simpl; [by rewrite app_nil_r | done].
  - rewrite N.eqb_refl, startswith_app. simpl. by rewrite drop_app_length.
Qed.

Lemma replace_first_absent (old new s : str) :
  contains s old = false -> replace_first old new s = s.
Proof.
  induction s as [|c s IH]; simpl.
  - destruct old; [done | done].
  - intros [H1 H2]%orb_false_iff. rewrite H1. by rewrite IH.
Qed.

End PyStrFacts.

(** ** The JSON decoder terminates and reads back what the encoder wrote *)

Module JsonFacts.

Import Shapes.

Lemma lstrip_by_length (p : N -> bool) (s : str) :
  (length (lstrip_by p s) <= length s)%nat.
Proof. induction s as [|c s IH]; simpl; [lia|]. destruct (p c); simpl; lia. Qed.

Lemma skip_ws_length (s : str) : (length (skip_ws s) <= length s)%nat.
Proof. apply lstrip_by_length. Qed.

Lemma cons_char_parsed c o t r :
  cons_char c o = Parsed (t, r) ->
  exists t', t = c :: t' /\ o = Parsed (t', r).
Proof.
  unfold cons_char. destruct o as [[t' r']| |]; simpl; [|done..].
  intros [= <- <-]. eauto.
Qed.

Lemma cons_char_exhausted c o : cons_char c o = Exhausted -> o = Exhausted.
Proof. unfold cons_char. by destruct o as [[t' r']| |]. Qed.

Lemma scanstring_length (s t r : str) :
  scanstring s = Parsed (t, r) -> (length r < length s)%nat.
Proof.
  revert t r. induction s as [s IH] using (induction_ltof1 _ (@length N)).
  unfold ltof in IH. intros t r.
  destruct s as [|c s]; cbn [scanstring]; [done|].
  repeat case_match; subst; try done;
  try (intros (t' & _ & Hrec)%cons_char_parsed; apply IH in Hrec;
       cbn [length] in *; lia).
  intros [= <- <-]. cbn [length]. lia.
Qed.

Lemma scanstring_total (s : str) : scanstring s <> Exhausted.
Proof.
  induction s as [s IH] using (induction_ltof1 _ (@length N)).
  unfold ltof in IH.
  destruct s as [|c s]; cbn [scanstring]; [done|].
  repeat case_match; subst; try done;
  intros Hrec%cons_char_exhausted; revert Hrec; apply IH; cbn [length]; lia.
Qed.

Lemma span_digits_length (s ds r : str) :
  span_digits s = (ds, r) -> (length r <= length s)%nat.
Proof.
  revert ds r. induction s as [|c s IH]; simpl; intros ds r.
  - intros [= <- <-]. simpl. lia.
  - destruct (is_digit c).
    + destruct (span_digits s) as [ds' r'] eqn:E. intros [= <- <-].
      specialize (IH _ _ eq_refl). lia.
    + intros [= <- <-]. simpl. lia.
Qed.

Lemma int_part_length (s ds r : str) :
  int_part s = Some (ds, r) -> (length r < length s)%nat.
Proof.
  destruct s as [|c s]; simpl; [done|].
  destruct (c =? 48); [intros [= <- <-]; lia|].
  destruct (is_digit c); [|done].
  destruct (span_digits s) as [ds' r'] eqn:E. intros [= <- <-].
  apply span_digits_length in E. lia.
Qed.

Lemma frac_part_length (s ds r : str) :
  frac_part s = (ds, r) -> (length r <= length s)%nat.
Proof.
  destruct s as [|c s]; simpl; [intros [= <- <-]; simpl; lia|].
  destruct (c =? 46); [|intros [= <- <-]; simpl; lia].
  destruct (span_digits s) as [[|d ds'] r'] eqn:E; intros [= <- <-]; simpl; [lia|].
  apply span_digits_length in E. lia.
Qed.

Lemma exp_part_length (s ds r : str) :
  exp_part s = (ds, r) -> (length r <= length s)%nat.
Proof.
  destruct s as [|c s]; simpl; [intros [= <- <-]; simpl; lia|].
  destruct ((c =? 101) || (c =? 69)); [|intros [= <- <-]; simpl; lia].
  destruct s as [|sg s1]; simpl; [intros [= <- <-]; simpl; lia|].
  destruct ((sg =? 45) || (sg =? 43)).
  - destruct (span_digits s1) as [[|d ds'] r'] eqn:E; intros [= <- <-]; simpl; [lia|].
    apply span_digits_length in E. lia.
  - destruct (span_digits (sg :: s1)) as [[|d ds'] r'] eqn:E; intros [= <- <-];
      simpl; [lia|].
    apply span_digits_length in E. simpl in E. lia.
Qed.

Lemma match_number_length (s : str) (v : json) (r : str) :
  match_number s = Some (v, r) -> (length r < length s)%nat.
Proof.
  unfold match_number.
  set (p := match s with
            | [] => ([], s)
            | c :: r0 => if c =? 45 then ([c], r0) else ([], s)
            end).
  assert (Hp : (length p.2 <= length s)%nat).
  { subst p. destruct s as [|c s]; simpl; [lia|]. destruct (c =? 45); simpl; lia. }
  destruct p as [sign s1]. simpl in Hp.
  destruct (int_part s1) as [[integer s2]|] eqn:E1; [|done].
  destruct (frac_part s2) as [frac s3] eqn:E2.
  destruct (exp_part s3) as [ex s4] eqn:E3.
  apply int_part_length in E1. apply frac_part_length in E2.
  apply exp_part_length in E3.
  destruct (frac ++ ex); intros [= <- <-]; lia.
Qed.

Lemma array_items_length scan (Hscan : shrinks scan) n :
  forall s vs r, array_items scan n s = Parsed (vs, r) -> (length r < length s)%nat.
Proof.
  induction n as [|n IH]; intros s vs r; simpl; [done|].
  destruct (scan s) as [[v r0]| |] eqn:E; simpl; [|done..].
  apply Hscan in E. pose proof (skip_ws_length r0).
  destruct (skip_ws r0) as [|c r1] eqn:E0; [done|]. simpl in *.
  destruct (c =? 93); [intros [= <- <-]; lia|].
  destruct (c =? 44); [|done].
  destruct (array_items scan n (skip_ws r1)) as [[vs' r2]| |] eqn:E2; simpl; [|done..].
  apply IH in E2. pose proof (skip_ws_length r1). intros [= <- <-]. lia.
Qed.

Lemma JSONArray_length scan (Hscan : shrinks scan) n s v r :
  JSONArray scan n s = Parsed (v, r) -> (length r <= length s)%nat.
Proof.
  unfold JSONArray. pose proof (skip_ws_length s).
  destruct (skip_ws s) as [|c r0] eqn:E0; [done|]. simpl in *.
  destruct (c =? 93); [intros [= <- <-]; lia|].
  destruct (array_items scan n (c :: r0)) as [[vs r1]| |] eqn:E; simpl; [|done..].
  apply array_items_length in E; [|done]. simpl in E. intros [= <- <-]. lia.
Qed.

Lemma object_items_length scan (Hscan : shrinks scan) n :
  forall s ps r, object_items scan n s = Parsed (ps, r) -> (length r < length s)%nat.
Proof.
  induction n as [|n IH]; intros s ps r; simpl; [done|].
  destruct (scanstring s) as [[key r0]| |] eqn:E; simpl; [|done..].
  apply scanstring_length in E. pose proof (skip_ws_length r0).
  destruct (skip_ws r0) as [|c r1] eqn:E0; [done|]. simpl in *.
  destruct (c =? 58); [|done].
  pose proof (skip_ws_length r1).
  destruct (scan (skip_ws r1)) as [[v r2]| |] eqn:E1; simpl; [|done..].
  apply Hscan in E1. pose proof (skip_ws_length r2).
  destruct (skip_ws r2) as [|d r3] eqn:E2; [done|]. simpl in *.
  destruct (d =? 125); [intros [= <- <-]; lia|].
  destruct (d =? 44); [|done].
  pose proof (skip_ws_length r3).
  destruct (skip_ws r3) as [|q r4] eqn:E3; [done|]. simpl in *.
  destruct (q =? QUOTE); [|done].
  destruct (object_items scan n r4) as [[ps' r5]| |] eqn:E4; simpl; [|done..].
  apply IH in E4. intros [= <- <-]. lia.
Qed.

Lemma JSONObject_length scan (Hscan : shrinks scan) n s v r :
  JSONObject scan n s = Parsed (v, r) -> (length r <= length s)%nat.
Proof.
  unfold JSONObject. pose proof (skip_ws_length s).
  destruct (skip_ws s) as [|c r0] eqn:E0; [done|]. simpl in *.
  destruct (c =? 125); [intros [= <- <-]; lia|].
  destruct (c =? QUOTE); [|done].
  destruct (object_items scan n r0) as [[ps r1]| |] eqn:E; simpl; [|done..].
  apply object_items_length in E; [|done]. intros [= <- <-]. lia.
Qed.

Lemma scan_once_length fuel : shrinks (scan_once fuel).
Proof.
  induction fuel as [|fuel IH]; intros s v r; cbn [scan_once]; [done|].
  destruct s as [|c s]; [done|].
  destruct (c =? QUOTE).
  { destruct (scanstring s) as [[t r']| |] eqn:E; simpl; [|done..].
    apply scanstring_length in E. intros [= <- <-]. lia. }
  destruct (c =? 123).
  { intros H%JSONObject_length; [cbn [length]; lia | done]. }
  destruct (c =? 91).
  { intros H%JSONArray_length; [cbn [length]; lia | done]. }
  repeat case_match; try done;
    try (intros [= <- <-]; rewrite length_drop; cbn [length]; lia).
  intros [= <- <-]. by eapply match_number_length.
Qed.

Lemma array_items_total scan m (Hlen : shrinks scan) (Hrun : runs scan m) n :
  forall s, (length s < n)%nat -> (length s < m)%nat ->
            array_items scan n s <> Exhausted.
Proof.
  induction n as [|n IH]; intros s Hn Hm; cbn [array_items]; [lia|].
  destruct (scan s) as [[v r0]| |] eqn:E; simpl; [|done|by apply Hrun in E].
  apply Hlen in E. pose proof (skip_ws_length r0).
  destruct (skip_ws r0) as [|c r1] eqn:E0; [done|]. cbn [length] in *.
  destruct (c =? 93); [done|]. destruct (c =? 44); [|done].
  pose proof (skip_ws_length r1).
  destruct (array_items scan n (skip_ws r1)) as [[vs' r2]| |] eqn:E2; simpl;
    [done..|].
  apply IH in E2; [done|lia..].
Qed.

Lemma JSONArray_total scan m (Hlen : shrinks scan) (Hrun : runs scan m) n s :
  (length s < n)%nat -> (length s < m)%nat -> JSONArray scan n s <> Exhausted.
Proof.
  intros Hn Hm. unfold JSONArray. pose proof (skip_ws_length s).
  destruct (skip_ws s) as [|c r0] eqn:E0; [done|]. cbn [length] in *.
  destruct (c =? 93); [done|].
  destruct (array_items scan n (c :: r0)) as [[vs r1]| |] eqn:E; simpl; [done..|].
  eapply array_items_total in E; [done..| |]; cbn [length]; lia.
Qed.

Lemma object_items_total scan m (Hlen : shrinks scan) (Hrun : runs scan m) n :
  forall s, (length s < n)%nat -> (length s < m)%nat ->
            object_items scan n s <> Exhausted.
Proof.
  induction n as [|n IH]; intros s Hn Hm; cbn [object_items]; [lia|].
  destruct (scanstring s) as [[key r0]| |] eqn:E; simpl;
    [|done|by apply scanstring_total in E].
  apply scanstring_length in E. pose proof (skip_ws_length r0).
  destruct (skip_ws r0) as [|c r1] eqn:E0; [done|]. cbn [length] in *.
  destruct (c =? 58); [|done].
  pose proof (skip_ws_length r1).
  destruct (scan (skip_ws r1)) as [[v r2]| |] eqn:E1; simpl;
    [|done|apply Hrun in E1; [done|lia]].
  apply Hlen in E1. pose proof (skip_ws_length r2).
  destruct (skip_ws r2) as [|d r3] eqn:E2; [done|]. cbn [length] in *.
  destruct (d =? 125); [done|]. destruct (d =? 44); [|done].
  pose proof (skip_ws_length r3).
  destruct (skip_ws r3) as [|q r4] eqn:E3; [done|]. cbn [length] in *.
  destruct (q =? QUOTE); [|done].
  destruct (object_items scan n r4) as [[ps' r5]| |] eqn:E4; simpl; [done..|].
  apply IH in E4; [done|lia..].
Qed.

Lemma JSONObject_total scan m (Hlen : shrinks scan) (Hrun : runs scan m) n s :
  (length s < n)%nat -> (length s < m)%nat -> JSONObject scan n s <> Exhausted.
Proof.
  intros Hn Hm. unfold JSONObject. pose proof (skip_ws_length s).
  destruct (skip_ws s) as [|c r0] eqn:E0; [done|]. cbn [length] in *.
  destruct (c =? 125); [done|]. destruct (c =? QUOTE); [|done].
  destruct (object_items scan n r0) as [[ps r1]| |] eqn:E; simpl; [done..|].
  eapply object_items_total in E; [done..| |]; lia.
Qed.

Lemma scan_once_total fuel : runs (scan_once fuel) fuel.
Proof.
  induction fuel as [|fuel IH]; intros s Hs; cbn [scan_once]; [lia|].
  destruct s as [|c s]; [done|]. cbn [length] in Hs.
  destruct (c =? QUOTE).
  { destruct (scanstring s) as [[t r']| |] eqn:E; simpl; [done..|].
    by apply scanstring_total in E. }
  destruct (c =? 123).
  { eapply JSONObject_total; [apply scan_once_length|exact IH|lia..]. }
  destruct (c =? 91).
  { eapply JSONArray_total; [apply scan_once_length|exact IH|lia..]. }
  repeat case_match; done.
Qed.

(** The decoder's bound on nesting is never reached. *)
Lemma json_loads_total (s : str) : json_loads s <> Exhausted.
Proof.
  unfold json_loads. destruct (startswith s [65279]); [done|].
  pose proof (skip_ws_length s).
  destruct (scan_once (S (length s)) (skip_ws s)) as [[v r]| |] eqn:E; simpl.
  - by destruct (skip_ws r).
  - done.
  - apply scan_once_total in E; [done|lia].
Qed.



Lemma hex4_control (c : N) :
  c < 32 -> hex4 48 48 (hex_char (c / 16)) (hex_char (c mod 16)) = Some c.
Proof.
  intros H. assert (Hn : (N.to_nat c < 32)%nat) by lia.
  rewrite <- (N2Nat.id c). revert Hn. generalize (N.to_nat c). intros n Hn.
  do 32 (destruct n as [|n]; [vm_compute; reflexivity|]). lia.
Qed.

Lemma scanstring_escape_char (c : N) (x : str) :
  scanstring (escape_char c ++ x) = cons_char c (scanstring x).
Proof.
  unfold escape_char.
  repeat case_match;
    repeat match goal with H : (_ =? _) = true |- _ => apply N.eqb_eq in H end;
    subst; try reflexivity.
  - cbn [app scanstring]. change (92 =? QUOTE) with false.
    change (92 =? BACKSLASH) with true. change (117 =? 117) with true.
    cbv iota. rewrite hex4_control by (by apply N.ltb_lt).
    replace ((55296 <=? c) && (c <=? 56319)) with false; [done|].
    symmetry. apply andb_false_iff. left. apply N.leb_gt.
    match goal with H : (c <? 32) = true |- _ => apply N.ltb_lt in H end. lia.
  - cbn [app scanstring]. unfold QUOTE, BACKSLASH.
    by repeat match goal with H : _ = false |- _ => rewrite H; clear H end.
Qed.

Lemma scanstring_escape (s rest : str) :
  scanstring (escape s ++ QUOTE :: rest) = Parsed (s, rest).
Proof.
  induction s as [|c s IH]; [reflexivity|].
  unfold escape in *. cbn [flat_map]. rewrite <- app_assoc.
  by rewrite scanstring_escape_char, IH.
Qed.


Lemma skip_ws_indent (level : nat) (x : str) :
  skip_ws (newline_indent level ++ x) = skip_ws x.
Proof.
  unfold skip_ws, newline_indent. cbn [app lstrip_by].
  change (is_ws NL) with true. cbv iota.
  induction (4 * level)%nat as [|n IH]; [done|]. exact IH.
Qed.

Lemma dumps_at_head (level : nat) (o : json) :
  textual o = true -> exists c t, dumps_at level o = c :: t /\ opener c.
Proof.
  unfold opener.
  destruct o as [|[]| | | |[|x l]|[|kv d]]; cbn [textual dumps_at]; try done;
    intros _; eexists _, _; (split; [reflexivity|]); tauto.
Qed.

Lemma skip_ws_opener (c : N) (t : str) : opener c -> skip_ws (c :: t) = c :: t.
Proof. unfold opener. intros H. by destruct_or!; subst. Qed.

Lemma join_cons2 (sep p q : str) (ps : list str) :
  join sep (p :: q :: ps) = p ++ sep ++ join sep (q :: ps).
Proof. reflexivity. Qed.

Lemma join_items (level : nat) (x : json) (l : list json) (rest : str) :
  join (lit "," ++ newline_indent (S level)) (map (dumps_at (S level)) (x :: l))
  ++ newline_indent level ++ lit "]" ++ rest
  = dumps_at (S level) x ++ items_tail level l rest.
Proof.
  revert x. induction l as [|y l IH]; intros x; [done|].
  cbn [map]. rewrite join_cons2. rewrite <- !app_assoc. f_equal.
  cbn [items_tail]. change (lit ",") with [44]. cbn [app]. f_equal. f_equal.
  apply (IH y).
Qed.

Lemma pair_text_app (level : nat) (k : str) (x : json) (t : str) :
  pair_text level (k, x) ++ t
  = QUOTE :: escape k ++ QUOTE :: 58 :: 32 :: dumps_at (S level) x ++ t.
Proof.
  unfold pair_text, encode_basestring. cbn [fst snd].
  change (lit ": ") with [58; 32]. cbn [app]. by rewrite <- !app_assoc.
Qed.

Lemma join_pairs (level : nat) (k : str) (x : json) (d : list (str * json))
    (rest : str) :
  join (lit "," ++ newline_indent (S level)) (map (pair_text level) ((k, x) :: d))
  ++ newline_indent level ++ lit "}" ++ rest
  = QUOTE :: escape k ++ QUOTE :: 58 :: 32 :: dumps_at (S level) x
    ++ pairs_tail level d rest.
Proof.
  revert k x. induction d as [|[k' y] d IH]; intros k x.
  - cbn [map join]. by rewrite pair_text_app.
  - cbn [map]. rewrite join_cons2. rewrite <- !app_assoc.
    rewrite pair_text_app. cbn [pairs_tail]. rewrite <- (IH k' y).
    change (lit ",") with [44]. cbn [app map]. done.
Qed.

Lemma dict_set_fresh (k : str) (v : json) (d : list (str * json)) :
  k ∉ d.*1 -> dict_set k v d = d ++ [(k, v)].
Proof.
  induction d as [|[k' v'] d IH]; cbn [dict_set fmap list_fmap fst app]; [done|].
  intros [Hne Hnin]%not_elem_of_cons. destruct (decide (k = k')); [done|].
  by rewrite IH.
Qed.

Lemma dict_of_pairs_distinct (ps : list (str * json)) :
  NoDup ps.*1 -> dict_of_pairs ps = ps.
Proof.
  unfold dict_of_pairs.
  enough (H : forall acc, NoDup ((acc ++ ps).*1) ->
            fold_left (fun d kv => dict_set kv.1 kv.2 d) ps acc = acc ++ ps)
    by (intros Hnd; apply (H [] Hnd)).
  induction ps as [|[k v] ps IH]; intros acc Hnd; cbn [fold_left fst snd].
  - by rewrite app_nil_r.
  - rewrite dict_set_fresh.
    + rewrite IH; rewrite <- app_assoc; done.
    + rewrite fmap_app in Hnd. apply NoDup_app in Hnd as (_ & Hd & _).
      intros Hin. apply (Hd k Hin). cbn. left.
Qed.

Lemma array_items_dumps (level fuel : nat) (rest : str) (l : list json) :
  Forall (fun o => textual o = true /\ reads_back o) l ->
  forall x n,
    reads_back x ->
    let text := dumps_at (S level) x ++ items_tail level l rest in
    (length text < n)%nat -> (length text < fuel)%nat ->
    array_items (scan_once fuel) n text = Parsed (x :: l, rest).
Proof.
  induction 1 as [|y l [Hy Ry] Hl IH]; intros x n Rx text Hn Hf; subst text.
  - destruct n as [|n]; [cbn [length] in Hn; lia|]. cbn [array_items].
    rewrite (Rx _ _ _ Hf). cbn [obind items_tail].
    rewrite skip_ws_indent. by cbn.
  - destruct n as [|n]; [cbn [length] in Hn; lia|]. cbn [array_items].
    rewrite (Rx _ _ _ Hf). cbn [obind items_tail].
    change (skip_ws (44 :: ?t)) with (44 :: t).
    change (44 =? 93) with false. change (44 =? 44) with true. cbv iota.
    rewrite skip_ws_indent.
    destruct (dumps_at_head (S level) y Hy) as (c & t & Hc & Hop).
    rewrite length_app in Hn, Hf. cbn [items_tail length] in Hn, Hf.
    rewrite length_app in Hn, Hf.
    rewrite Hc. cbn [app]. rewrite skip_ws_opener by done.
    change (c :: t ++ items_tail level l rest)
      with ((c :: t) ++ items_tail level l rest). rewrite <- Hc.
    rewrite IH; [done|done|lia..].
Qed.


Lemma object_items_dumps (level fuel : nat) (rest : str)
    (d : list (str * json)) :
  Forall (fun kv => textual kv.2 = true /\ reads_back kv.2) d ->
  forall k x n,
    textual x = true -> reads_back x ->
    let text := escape k ++ QUOTE :: 58 :: 32 :: dumps_at (S level) x
                ++ pairs_tail level d rest in
    (length text < n)%nat -> (length text < fuel)%nat ->
    object_items (scan_once fuel) n text = Parsed ((k, x) :: d, rest).
Proof.
  induction 1 as [|[k' y] d [Hy Ry] Hd IH]; intros k x n Hx Rx text Hn Hf;
    subst text; cbn [fst snd] in *.
  - destruct n as [|n]; [cbn [length] in Hn; lia|]. cbn [object_items].
    rewrite scanstring_escape. cbn [obind].
    change (skip_ws (58 :: 32 :: ?t)) with (58 :: 32 :: t).
    change (58 =? 58) with true. cbv iota.
    change (skip_ws (32 :: ?t)) with (skip_ws t).
    destruct (dumps_at_head (S level) x Hx) as (c & t & Hc & Hop).
    rewrite length_app in Hf. cbn [length] in Hf.
    rewrite Hc. cbn [app]. rewrite skip_ws_opener by done.
    change (c :: t ++ ?u) with ((c :: t) ++ u). rewrite <- Hc.
    rewrite Rx by lia. cbn [obind pairs_tail].
    rewrite skip_ws_indent. by cbn.
  - destruct n as [|n]; [cbn [length] in Hn; lia|]. cbn [object_items].
    rewrite scanstring_escape. cbn [obind].
    change (skip_ws (58 :: 32 :: ?t)) with (58 :: 32 :: t).
    change (58 =? 58) with true. cbv iota.
    change (skip_ws (32 :: ?t)) with (skip_ws t).
    destruct (dumps_at_head (S level) x Hx) as (c & t & Hc & Hop).
    rewrite length_app in Hn, Hf. cbn [length] in Hn, Hf.
    rewrite length_app in Hn, Hf. cbn [pairs_tail length] in Hn, Hf.
    rewrite length_app in Hn, Hf. cbn [length] in Hn, Hf.
    rewrite Hc. cbn [app]. rewrite skip_ws_opener by done.
    change (c :: t ++ ?u) with ((c :: t) ++ u). rewrite <- Hc.
    rewrite Rx by (rewrite length_app; cbn [pairs_tail length];
                   rewrite length_app; cbn [length]; lia).
    cbn [obind pairs_tail].
    change (skip_ws (44 :: ?t)) with (44 :: t).
    change (44 =? 125) with false. change (44 =? 44) with true. cbv iota.
    rewrite skip_ws_indent.
    change (skip_ws (QUOTE :: ?t)) with (QUOTE :: t).
    change (QUOTE =? QUOTE) with true. cbv iota.
    rewrite IH; [done|done|done|lia..].
Qed.

Lemma positive_fuel (s : str) (fuel : nat) :
  (length s < fuel)%nat -> exists f, fuel = S f.
Proof. destruct fuel; [lia | eauto]. Qed.

Lemma textual_reads_back (o : json) : textual o = true -> reads_back o.
Proof.
  induction o as [|b|z|x|s|l IH|d IH] using json_nested_ind;
    intros Ht level fuel rest Hf; try done;
    destruct (positive_fuel _ _ Hf) as [f ->].
  - reflexivity.
  - by destruct b.
  - cbn [dumps_at]. unfold encode_basestring. cbn [app scan_once].
    change (QUOTE =? QUOTE) with true. cbv iota.
    rewrite <- app_assoc. cbn [app]. by rewrite scanstring_escape.
  - destruct l as [|x l]; [reflexivity|].
    cbn [dumps_at textual forallb] in *.
    apply andb_true_iff in Ht as [Hx Hl]. apply Forall_cons in IH as [Rx Rl].
    revert Hf. rewrite <- !app_assoc, join_items. change (lit "[") with [91].
    cbn [app length scan_once]. intros Hf.
    change (91 =? QUOTE) with false. change (91 =? 123) with false.
    change (91 =? 91) with true. cbv iota.
    unfold JSONArray. rewrite skip_ws_indent.
    destruct (dumps_at_head (S level) x Hx) as (c & t & Hc & Hop).
    rewrite Hc. cbn [app]. rewrite skip_ws_opener by done.
    replace (c =? 93) with false
      by (unfold opener in Hop; by destruct_or!; subst).
    change (c :: t ++ ?u) with ((c :: t) ++ u). rewrite <- Hc.
    rewrite length_app in Hf.
    rewrite array_items_dumps; [done| |by apply Rx|lia..].
    apply Forall_forall. intros y Hy. split.
    + rewrite forallb_forall in Hl. apply Hl. by apply list_elem_of_In.
    + rewrite Forall_forall in Rl. apply Rl; [done|].
      rewrite forallb_forall in Hl. apply Hl. by apply list_elem_of_In.
  - destruct d as [|[k x] d]; [reflexivity|].
    cbn [dumps_at textual] in *.
    apply andb_true_iff in Ht as [Hnd Hd]. apply bool_decide_eq_true in Hnd.
    cbn [forallb snd] in Hd. apply andb_true_iff in Hd as [Hx Hd].
    apply Forall_cons in IH as [Rx Rd]. cbn [snd] in Rx.
    revert Hf.
    change (map (fun kv : str * json =>
                   encode_basestring kv.1 ++ lit ": " ++ dumps_at (S level) kv.2)
                ((k, x) :: d))
      with (map (pair_text level) ((k, x) :: d)).
    rewrite <- !app_assoc, join_pairs. change (lit "{") with [123].
    cbn [app length scan_once]. intros Hf.
    change (123 =? QUOTE) with false. change (123 =? 123) with true. cbv iota.
    unfold JSONObject. rewrite skip_ws_indent.
    change (skip_ws (QUOTE :: ?t)) with (QUOTE :: t).
    change (QUOTE =? 125) with false. change (QUOTE =? QUOTE) with true.
    cbv iota. rewrite length_app in Hf. cbn [length] in Hf.
    rewrite object_items_dumps; [|..|lia|lia]; [|..|done|by apply Rx].
    + cbn [obind]. by rewrite dict_of_pairs_distinct.
    + apply Forall_forall. intros kv Hkv. split.
      * rewrite forallb_forall in Hd. apply Hd. by apply list_elem_of_In.
      * rewrite Forall_forall in Rd. apply Rd; [done|].
        rewrite forallb_forall in Hd. apply Hd. by apply list_elem_of_In.
Qed.

(** What [json.dump] wrote, [json.load] reads back. *)
Lemma json_loads_dumps (o : json) :
  textual o = true -> json_loads (json_dumps o) = Parsed o.
Proof.
  intros Ht. unfold json_loads, json_dumps.
  destruct (dumps_at_head 0 o Ht) as (c & t & Hc & Hop).
  rewrite Hc. 
  replace (startswith (c :: t) [65279]) with false
    by (unfold opener in Hop; by destruct_or!; subst).
  rewrite skip_ws_opener by done. rewrite <- Hc.
  rewrite <- (app_nil_r (dumps_at 0 o)) at 2.
  rewrite (textual_reads_back o Ht); [done|]. rewrite app_nil_r. lia.
Qed.

End JsonFacts.

(** ** The resume service *)

Module ServerProofs.

Import PyStrFacts JsonFacts Server Spec Shapes Examples.


Lemma mem_backtick (c : N) : mem c (lit "`") = true <-> c = BACKTICK.
Proof.
  change (lit "`") with [BACKTICK]. unfold mem. cbn [existsb].
  rewrite orb_false_r. apply N.eqb_eq.
Qed.

Lemma Forall_mem_backtick (s : str) :
  Forall (fun c => mem c (lit "`") = true) s -> backticks s.
Proof. intros H. eapply Forall_impl; [exact H|]. intros c. apply mem_backtick. Qed.

(** C1, as amended: on a reply whose trimmed text opens with a fence,
    the code removes the backticks at the two ends of the trimmed text
    and keeps those inside; when the tag [json] follows the opening fence
    that occurrence is removed, when [json] occurs nowhere nothing is
    removed; what is left is trimmed of white space and handed to the
    JSON parser. *)
Theorem clean_output_fenced (raw : str) :
  startswith (strip raw) (lit "```") = true ->
  exists l body r,
    strip raw = l ++ body ++ r /\ backticks l /\ backticks r
    /\ head body <> Some BACKTICK /\ last body <> Some BACKTICK
    /\ (forall rest, body = lit "json" ++ rest -> clean_output raw = strip rest)
    /\ (contains body (lit "json") = false -> clean_output raw = strip body).
Proof.
  intros Hfence. unfold clean_output. rewrite Hfence.
  set (body := strip_chars (lit "`") (strip raw)).
  destruct (strip_by_split (fun c => mem c (lit "`")) (strip raw))
    as (l & r & Hsplit & Hl & Hr).
  exists l, body, r. repeat split.
  - exact Hsplit.
  - by apply Forall_mem_backtick.
  - by apply Forall_mem_backtick.
  - intros H. apply strip_by_head in H. by rewrite (proj2 (mem_backtick _)) in H.
  - intros H. apply strip_by_last in H. by rewrite (proj2 (mem_backtick _)) in H.
  - intros rest ->. by rewrite replace_first_head.
  - intros H. by rewrite replace_first_absent.
Qed.

Lemma clean_output_fenced_witness :
  exists l body r,
    strip (lit "```json {} ```") = l ++ body ++ r /\ backticks l /\ backticks r
    /\ head body <> Some BACKTICK /\ last body <> Some BACKTICK
    /\ (forall rest, body = lit "json" ++ rest ->
                     clean_output (lit "```json {} ```") = strip rest)
    /\ (contains body (lit "json") = false ->
        clean_output (lit "```json {} ```") = strip body).
Proof. apply (clean_output_fenced (lit "```json {} ```")). reflexivity. Defined.

(** C1 as stated fails: the backticks inside the document survive, and
    the white space around the document is removed as well. *)
Lemma clean_output_keeps_inner_backticks :
  let raw := lit "```json" ++ [NL] ++ shell_json ++ [NL] ++ lit "```" in
  startswith (strip raw) (lit "```") = true
  /\ clean_output raw = shell_json
  /\ spec_clean_output raw
     = [NL] ++ lit "{" ++ quoted (lit "cmd") ++ lit ": " ++ quoted (lit "ls")
       ++ lit "}" ++ [NL]
  /\ clean_output raw <> spec_clean_output raw
  /\ normalizeResumeJson raw = Ok (JDict [(lit "cmd", JStr (lit "`ls`"))]).
Proof. vm_compute. repeat split; discriminate. Qed.


Example normalizeResumeJson_not_json :
  normalizeResumeJson (lit " {not json ") =
  Ok (JDict [(lit "error", JStr (lit "JSON parsing failed"));
             (lit "raw_output", JStr (lit "{not json"))]).
Proof. vm_compute. reflexivity. Qed.

Lemma isspace_NL : Forall (fun c => isspace c = true) [NL].
Proof. by repeat constructor. Qed.

Lemma clean_output_of_fenced (J : str) :
  clean_output (fenced J) = strip J.
Proof.
  unfold clean_output, fenced.
  assert (Hstrip : strip (lit "```json" ++ [NL] ++ J ++ [NL] ++ lit "```")
                   = lit "```json" ++ [NL] ++ J ++ [NL] ++ lit "```").
  { apply strip_by_fix.
    - intros c [= <-]. reflexivity.
    - intros c. rewrite !app_assoc. change (lit "```") with ([96; 96] ++ [96]).
      rewrite app_assoc, last_snoc. intros [= <-]. reflexivity. }
  rewrite Hstrip. change (startswith _ (lit "```")) with true. cbv iota.
  assert (Hticks : strip_chars (lit "`")
                     (lit "```json" ++ [NL] ++ J ++ [NL] ++ lit "```")
                   = lit "json" ++ [NL] ++ J ++ [NL]).
  { change (lit "```json") with (lit "```" ++ lit "json").
    rewrite <- !app_assoc. unfold strip_chars.
    rewrite (app_assoc (lit "json")), (app_assoc (lit "json" ++ [NL])),
      (app_assoc ((lit "json" ++ [NL]) ++ J)).
    rewrite strip_by_app_all by (by repeat constructor).
    rewrite <- !app_assoc. apply strip_by_fix.
    - intros c [= <-]. reflexivity.
    - intros c. rewrite !app_assoc, last_snoc. intros [= <-]. reflexivity. }
  rewrite Hticks, replace_first_head. cbn [app].
  change (NL :: J ++ [NL]) with ([NL] ++ J ++ [NL]).
  apply (strip_by_app_all isspace); apply isspace_NL.
Qed.

Lemma is_ws_isspace (c : N) : is_ws c = true -> isspace c = true.
Proof.
  unfold is_ws. rewrite !orb_true_iff, !N.eqb_eq. intros H.
  by destruct_or!; subst.
Qed.

Lemma lstrip_skip_ws (s : str) : lstrip_by isspace s = lstrip_by isspace (skip_ws s).
Proof.
  unfold skip_ws. induction s as [|c s IH]; [done|]. cbn [lstrip_by].
  destruct (is_ws c) eqn:E; [|done]. by rewrite (is_ws_isspace c E).
Qed.

Lemma match_number_not_dict (s : str) d r :
  match_number s <> Some (JDict d, r).
Proof. unfold match_number. repeat case_match; congruence. Qed.

Lemma JSONArray_not_dict scan n s d r :
  JSONArray scan n s <> Parsed (JDict d, r).
Proof.
  unfold JSONArray. destruct (skip_ws s) as [|c t]; [done|].
  destruct (c =? 93); [congruence|].
  destruct (array_items scan n (c :: t)) as [[? ?]| |]; cbn; congruence.
Qed.

Lemma scan_once_dict_head fuel (c : N) (t : str) d r :
  scan_once fuel (c :: t) = Parsed (JDict d, r) -> c = 123.
Proof.
  destruct fuel as [|fuel]; [done|]. cbn [scan_once].
  destruct (c =? QUOTE).
  { destruct (scanstring t) as [[key r0]| |]; cbn [obind]; congruence. }
  destruct (c =? 123) eqn:E2; [by apply N.eqb_eq in E2|].
  destruct (c =? 91); [by intros H%JSONArray_not_dict|].
  repeat case_match; try congruence.
  intros [= -> ->]. exfalso. by eapply match_number_not_dict.
Qed.

Lemma json_object_text_head (J : str) :
  json_object_text J -> exists t, lstrip_by isspace J = 123 :: t.
Proof.
  intros [d Hd]. unfold json_loads in Hd.
  destruct (startswith J [65279]); [done|].
  rewrite lstrip_skip_ws.
  destruct (skip_ws J) as [|c t] eqn:E; [done|].
  destruct (scan_once (S (length J)) (c :: t)) as [[v r]| |] eqn:Hs;
    cbn [obind] in Hd; [|done..].
  destruct (skip_ws r); [|done]. injection Hd as ->.
  apply scan_once_dict_head in Hs as ->. by exists t.
Qed.

(** C9: a JSON object inside a [json] fence is normalized to the same
    result as the object on its own. *)
Theorem normalizeResumeJson_fenced (J : str) :
  json_object_text J ->
  normalizeResumeJson (fenced J) = normalizeResumeJson J.
Proof.
  intros HJ. unfold normalizeResumeJson.
  rewrite clean_output_of_fenced.
  replace (clean_output J) with (strip J); [done|].
  unfold clean_output. destruct (json_object_text_head J HJ) as [t Ht].
  unfold strip, strip_by. rewrite Ht.
  fold (strip_by isspace J). 
  assert (Hh : head (rstrip_by isspace (123 :: t)) = Some 123)
    by (by apply rstrip_by_head).
  destruct (rstrip_by isspace (123 :: t)) as [|c u]; [done|].
  by injection Hh as ->.
Qed.

Lemma normalizeResumeJson_fenced_witness :
  normalizeResumeJson (fenced jane_json) = normalizeResumeJson jane_json.
Proof.
  apply (normalizeResumeJson_fenced jane_json).
  exists [(lit "name", JStr (lit "Jane Doe"));
          (lit "email", JStr (lit "jane@example.com"))].
  vm_compute. reflexivity.
Defined.



Lemma endswith_spec (s suffix : str) :
  endswith s suffix = true <-> has_suffix s suffix.
Proof.
  unfold endswith, has_suffix. rewrite startswith_spec. split.
  - intros [t Ht]. exists (rev t).
    apply (f_equal (fun l => rev l)) in Ht. by rewrite rev_involutive, rev_app_distr,
      rev_involutive in Ht.
  - intros [stem ->]. exists (rev stem). by rewrite rev_app_distr.
Qed.

(** Two suffixes with different last letters exclude each other. *)
Ltac other_suffix := unfold endswith; rewrite rev_app_distr; reflexivity.

Section Service.

Variable pdfplumber_open : bytes -> result (list (option str)).
Variable docx_Document : bytes -> result (list str).
Variable image_to_string : bytes -> result str.
Variable generate_content : list str -> result (option str).
Variables system_prompt schema_prompt : str.

#[local] Abbreviation extract_text_from_pdf := (extract_text_from_pdf pdfplumber_open).
#[local] Abbreviation extract_text_from_docx := (extract_text_from_docx docx_Document).
#[local] Abbreviation extract_text_from_image := (extract_text_from_image image_to_string).
#[local] Abbreviation extract_text :=
  (extract_text pdfplumber_open docx_Document image_to_string).
#[local] Abbreviation extract_resume :=
  (extract_resume pdfplumber_open docx_Document image_to_string
                  generate_content system_prompt schema_prompt).

Lemma extract_text_from_pdf_run (b : bytes) (tr : trace) :
  extract_text_from_pdf b tr =
  (match pdfplumber_open b with
   | Ok pages => Ok (strip (join [NL] (map (default []) pages)))
   | Raise e => Raise e
   end, tr ++ [PdfOpen b]).
Proof.
  unfold Server.extract_text_from_pdf, mbind, M_bind, library, mret, M_ret.
  by destruct (pdfplumber_open b).
Qed.

Lemma extract_text_from_docx_run (b : bytes) (tr : trace) :
  extract_text_from_docx b tr =
  (match docx_Document b with
   | Ok paragraphs => Ok (strip (join [NL] paragraphs))
   | Raise e => Raise e
   end, tr ++ [DocxOpen b]).
Proof.
  unfold Server.extract_text_from_docx, mbind, M_bind, library, mret, M_ret.
  by destruct (docx_Document b).
Qed.

Lemma extract_text_from_image_run (b : bytes) (tr : trace) :
  extract_text_from_image b tr =
  (match image_to_string b with
   | Ok text => Ok (strip text)
   | Raise e => Raise e
   end, tr ++ [ImageOcr b]).
Proof.
  unfold Server.extract_text_from_image, mbind, M_bind, library, mret, M_ret.
  by destruct (image_to_string b).
Qed.

Lemma extract_text_cases (file : FileStorage) :
  extract_text file = extract_text_from_pdf (payload file)
  \/ extract_text file = extract_text_from_docx (payload file)
  \/ extract_text file = extract_text_from_image (payload file).
Proof. unfold Server.extract_text. repeat case_match; auto. Qed.

Lemma extract_text_trimmed (file : FileStorage) (tr tr' : trace) (t : str) :
  extract_text file tr = (Ok t, tr') -> strip t = t.
Proof.
  destruct (extract_text_cases file) as [-> | [-> | ->]].
  - rewrite extract_text_from_pdf_run. destruct (pdfplumber_open _); [|done].
    intros [= <- _]. apply strip_by_idemp.
  - rewrite extract_text_from_docx_run. destruct (docx_Document _); [|done].
    intros [= <- _]. apply strip_by_idemp.
  - rewrite extract_text_from_image_run. destruct (image_to_string _); [|done].
    intros [= <- _]. apply strip_by_idemp.
Qed.

Lemma extract_text_one_call (file : FileStorage) (tr : trace) :
  exists c, extraction_of (payload file) c
            /\ (extract_text file tr).2 = tr ++ [c].
Proof.
  unfold extraction_of.
  destruct (extract_text_cases file) as [-> | [-> | ->]].
  - rewrite extract_text_from_pdf_run. eauto.
  - rewrite extract_text_from_docx_run. eauto.
  - rewrite extract_text_from_image_run. eauto 6.
Qed.

(** C6: [extract_text] routes on the suffix of the file name, compared
    in lower case: [.pdf] to the PDF reader, [.docx] to the DOCX reader,
    [.png], [.jpg] and [.jpeg] to OCR and everything else to the PDF
    reader.  The PDF text is the text of the pages joined by line feeds,
    a page without text counting as empty; the DOCX text is the
    paragraphs joined by line feeds; the text returned is trimmed. *)
Theorem extract_text_routes (file : FileStorage) :
  let name := lower (filename file) in
  let b := payload file in
  (has_suffix name (lit ".pdf") -> extract_text file = extract_text_from_pdf b)
  /\ (has_suffix name (lit ".docx") ->
      extract_text file = extract_text_from_docx b)
  /\ (has_suffix name (lit ".png") \/ has_suffix name (lit ".jpg")
      \/ has_suffix name (lit ".jpeg") ->
      extract_text file = extract_text_from_image b)
  /\ (~ has_suffix name (lit ".pdf") -> ~ has_suffix name (lit ".docx") ->
      ~ has_suffix name (lit ".png") -> ~ has_suffix name (lit ".jpg") ->
      ~ has_suffix name (lit ".jpeg") ->
      extract_text file = extract_text_from_pdf b)
  /\ (forall tr,
        extract_text_from_pdf b tr =
        (match pdfplumber_open b with
         | Ok pages => Ok (strip (join [NL] (map (default []) pages)))
         | Raise e => Raise e
         end, tr ++ [PdfOpen b]))
  /\ (forall tr,
        extract_text_from_docx b tr =
        (match docx_Document b with
         | Ok paragraphs => Ok (strip (join [NL] paragraphs))
         | Raise e => Raise e
         end, tr ++ [DocxOpen b]))
  /\ (forall tr,
        extract_text_from_image b tr =
        (match image_to_string b with
         | Ok text => Ok (strip text)
         | Raise e => Raise e
         end, tr ++ [ImageOcr b]))
  /\ (forall tr tr' t, extract_text file tr = (Ok t, tr') -> strip t = t).
Proof.
  intros name b. unfold Server.extract_text. fold name. fold b.
  repeat split.
  - intros H%endswith_spec. by rewrite H.
  - intros [stem Hs]. rewrite Hs.
    replace (endswith (stem ++ lit ".docx") (lit ".pdf")) with false
      by (symmetry; other_suffix).
    by rewrite (proj2 (endswith_spec _ _)) by (by exists stem).
  - intros H.
    assert (Hpdf : endswith name (lit ".pdf") = false).
    { destruct H as [[stem ->] | [[stem ->] | [stem ->]]]; other_suffix. }
    assert (Hdocx : endswith name (lit ".docx") = false).
    { destruct H as [[stem ->] | [[stem ->] | [stem ->]]]; other_suffix. }
    rewrite Hpdf, Hdocx.
    replace (endswith name (lit ".png") || endswith name (lit ".jpg")
             || endswith name (lit ".jpeg")) with true; [done|].
    symmetry. rewrite !orb_true_iff, !endswith_spec. tauto.
  - intros H1 H2 H3 H4 H5.
    rewrite <- endswith_spec in H1, H2, H3, H4, H5.
    apply not_true_is_false in H1, H2, H3, H4, H5.
    by rewrite H1, H2, H3, H4, H5.
  - apply extract_text_from_pdf_run.
  - apply extract_text_from_docx_run.
  - apply extract_text_from_image_run.
  - intros tr tr' t. apply extract_text_trimmed.
Qed.

(** C3, as amended: when the reader raises on the payload, the route
    answers with status 500 and the body
    [{error: "Server error", details: <the message>}]; the reader was
    called once. *)
Theorem extract_resume_reader_error (req : request) (file : FileStorage)
    (tr tr' : trace) (e : exn) :
  field (lit "file") (files req) = Some file ->
  filename file <> [] ->
  extract_text file tr = (Raise e, tr') ->
  exists c,
    extraction_of (payload file) c
    /\ extract_resume req tr =
       (Ok (JDict [(lit "error", JStr (lit "Server error"));
                   (lit "details", JStr (exn_str e))], 500%Z),
        tr ++ [c; Print (lit "Error: " ++ exn_str e)]).
Proof.
  intros Hfield Hname Hraise.
  destruct (extract_text_one_call file tr) as (c & Hc & Htr).
  exists c. split; [done|].
  unfold Server.extract_resume. rewrite Hfield.
  destruct (decide (filename file = [])); [done|].
  unfold try_except, mbind, M_bind. rewrite Hraise.
  rewrite Hraise in Htr. cbn [snd] in Htr. subst tr'.
  unfold library, mret, M_ret. by rewrite <- app_assoc.
Qed.

End Service.

Lemma extract_text_routes_witness :
  Server.extract_text unreadable_pdf jane_docx blank_image
    {| filename := lit "Resume.DOCX"; payload := [] |}
  = Server.extract_text_from_docx jane_docx [].
Proof.
  apply (proj1 (proj2 (extract_text_routes unreadable_pdf jane_docx blank_image
                         {| filename := lit "Resume.DOCX"; payload := [] |}))).
  exists (lit "resume"). reflexivity.
Defined.

Lemma extract_resume_reader_error_witness :
  exists c,
    extraction_of [] c
    /\ Server.extract_resume unreadable_pdf jane_docx blank_image jane_model
         role_prompt format_prompt (upload (lit "cv.pdf")) []
       = (Ok (JDict [(lit "error", JStr (lit "Server error"));
                     (lit "details",
                      JStr (lit "No /Root object! - Is this really a PDF?"))],
              500%Z),
          [] ++ [c; Print (lit "Error: "
                           ++ lit "No /Root object! - Is this really a PDF?")]).
Proof.
  apply (extract_resume_reader_error unreadable_pdf jane_docx blank_image
           jane_model role_prompt format_prompt (upload (lit "cv.pdf"))
           {| filename := lit "cv.pdf"; payload := [] |} [] [PdfOpen []]
           (Exn LibraryError (lit "No /Root object! - Is this really a PDF?")));
    [reflexivity | discriminate | reflexivity].
Defined.

(** C3 as stated fails: an upload the PDF reader rejects is answered
    with status 500, not 400. *)
Lemma unreadable_upload_is_a_server_error :
  let answer :=
    (Server.extract_resume unreadable_pdf jane_docx blank_image jane_model
       role_prompt format_prompt (upload (lit "cv.pdf")) []).1 in
  answer = Ok (JDict [(lit "error", JStr (lit "Server error"));
                      (lit "details",
                       JStr (lit "No /Root object! - Is this really a PDF?"))],
               500%Z)
  /\ (forall body, answer <> Ok (body, 400%Z)).
Proof. vm_compute. split; [reflexivity | intros body H; discriminate H]. Qed.

(** The scenario of the specification: two paragraphs of a DOCX file,
    a fenced reply of the model, the parsed object as the answer. *)
Example extract_resume_jane :
  Server.extract_resume unreadable_pdf jane_docx blank_image jane_model
    role_prompt format_prompt (upload (lit "jane.docx")) []
  = (Ok (JDict [(lit "name", JStr (lit "Jane Doe"));
                (lit "email", JStr (lit "jane@example.com"))], 200%Z),
     [DocxOpen [];
      GenerateContent
        [role_prompt; format_prompt;
         user_prompt (lit "Jane Doe" ++ [NL] ++ lit "jane@example.com")]]).
Proof. vm_compute. reflexivity. Qed.

End ServerProofs.

(** ** The chat bot *)

Module BotProofs.

Import PyStrFacts JsonFacts Bot Spec Shapes Examples.


Lemma part_texts_app (ps qs : list Part) :
  part_texts (ps ++ qs) = part_texts ps ++ part_texts qs.
Proof. unfold part_texts. by rewrite map_app, concat_app. Qed.

Lemma add_parts_texts (ps : list Part) (ai_text : str) :
  add_parts ai_text ps = ai_text ++ part_texts ps.
Proof.
  revert ai_text. induction ps as [|p ps IH]; intros ai_text; cbn [add_parts].
  - unfold part_texts. cbn. by rewrite app_nil_r.
  - change (part_texts (p :: ps))
      with (default [] (part_text p) ++ part_texts ps).
    destruct (part_text p) as [[|c t]|]; cbn [default]; rewrite IH;
      by rewrite <- ?app_assoc.
Qed.

Lemma add_candidates_parts (cs : list Candidate) (ai_text : str) :
  match all_parts cs with
  | Some ps => add_candidates ai_text cs = Ok (ai_text ++ part_texts ps)
  | None => exists e, add_candidates ai_text cs = Raise e
  end.
Proof.
  revert ai_text. induction cs as [|cand cs IH]; intros ai_text;
    cbn [all_parts add_candidates].
  - unfold part_texts. cbn. by rewrite app_nil_r.
  - destruct (content cand) as [c|]; [|eauto].
    destruct (content_parts c) as [ps|].
    + specialize (IH (add_parts ai_text ps)).
      destruct (all_parts cs) as [rest|]; [|done].
      by rewrite IH, add_parts_texts, part_texts_app, app_assoc.
    + destruct (all_parts cs); eauto.
Qed.

(** C4, as amended: in the image flow the aggregated text is the reply
    when it is not empty; otherwise the reply is the text of every
    text-bearing part of every candidate, which may be empty, and the
    apology only when the candidates cannot be walked (no candidates, a
    candidate without content, a content without parts).  In the text
    flow the reply is the text of the text-bearing parts of the response,
    which may be empty, and there is no apology. *)
Theorem reply_texts (response : Response) :
  photo_reply_text response =
  match text response with
  | Some (c :: t) => c :: t
  | _ =>
      match candidates response ≫= all_parts with
      | Some ps => part_texts ps
      | None => apology
      end
  end
  /\ chat_reply_text response =
     match parts response with
     | Some ps => Ok (part_texts ps)
     | None => Raise (Exn TypeError (lit "'NoneType' object is not iterable"))
     end.
Proof.
  split.
  - unfold photo_reply_text.
    assert (H : forall cs,
               match add_candidates [] cs with
               | Ok ai_text => ai_text
               | Raise _ => apology
               end = match all_parts cs with
                     | Some ps => part_texts ps
                     | None => apology
                     end).
    { intros cs. pose proof (add_candidates_parts cs []) as Hc.
      destruct (all_parts cs); [by rewrite Hc | by destruct Hc as [e ->]]. }
    destruct (text response) as [[|c t]|]; cbn [default]; try done;
      destruct (candidates response) as [cs|]; cbn; by rewrite ?H.
  - unfold chat_reply_text. destruct (parts response) as [ps|]; [|done].
    by rewrite add_parts_texts.
Qed.

Lemma bind_run {S A B} (m : M S A) (k : A -> M S B) (s : S) :
  (m ≫= k) s =
  match m s with
  | (Ok a, s') => k a s'
  | (Raise e, s') => (Raise e, s')
  end.
Proof. reflexivity. Qed.

Lemma files_set_files f w : files (set_files f w) = f (files w).
Proof. reflexivity. Qed.

Lemma load_memory_run (user_id : Z) (w : world) :
  load_memory user_id w =
  (match files w !! user_memory_path user_id with
   | None => Ok (JDict [])
   | Some content => loads content
   end, w).
Proof.
  unfold load_memory. rewrite bind_run. unfold path_exists, gets.
  destruct (files w !! user_memory_path user_id) as [content|] eqn:E.
  - rewrite bool_decide_eq_true_2 by eauto. rewrite bind_run.
    unfold read_text. by rewrite E.
  - by rewrite bool_decide_eq_false_2 by (by intros [? ?]).
Qed.




Lemma save_history_run (user_id : Z) (sender message : str) (w : world) :
  let entry := history_entry (strftime (clock w (ticks w))) sender message in
  match stored_history w user_id with
  | Some l =>
      save_history user_id sender message w =
      (Ok tt,
       set_files (fun fs => <[user_history_path user_id :=
                                json_dumps (JList (l ++ [entry]))]> fs)
                 (ticked w))
  | None => exists e, save_history user_id sender message w = (Raise e, ticked w)
  end.
Proof.
  intros entry. unfold stored_history, save_history.
  rewrite bind_run. unfold now. fold (ticked w). fold entry.
  rewrite bind_run. unfold path_exists, gets.
  change (files (ticked w)) with (files w).
  destruct (files w !! user_history_path user_id) as [content|] eqn:E.
  - rewrite bool_decide_eq_true_2 by eauto. rewrite !bind_run.
    unfold read_text. change (files (ticked w)) with (files w). rewrite E.
    unfold loads.
    destruct (json_loads content) as [[]| |] eqn:EL; cbn; eauto.
  - rewrite bool_decide_eq_false_2 by (by intros [? ?]). reflexivity.
Qed.

Lemma textual_history_entry (ts sender message : str) :
  textual (history_entry ts sender message) = true.
Proof. reflexivity. Qed.



Lemma contains_split_first (sep s : str) :
  contains s sep = true -> exists kv, split_first sep s = Some kv.
Proof.
  induction s as [|c s IH]; cbn [contains split_first].
  - rewrite orb_false_r. intros ->. eauto.
  - destruct (startswith (c :: s) sep); [eauto|]. cbn [orb].
    intros [[a b] ->]%IH. eauto.
Qed.

Lemma pad2_two_digits (n : N) : n < 100 -> two_digits (pad2 n) = true.
Proof.
  intros Hn.
  assert (H : forallb (fun k => two_digits (pad2 (N.of_nat k))) (seq 0 100) = true)
    by (vm_compute; reflexivity).
  rewrite forallb_forall in H. specialize (H (N.to_nat n)).
  rewrite N2Nat.id in H. apply H, in_seq. lia.
Qed.

Lemma decimal_four_digits (n : N) :
  1000 <= n <= 9999 -> four_digits (decimal n) = true.
Proof.
  intros Hn.
  assert (H : forallb (fun k => four_digits (decimal (N.of_nat k)))
                      (seq (N.to_nat 1000) (N.to_nat 9000)) = true)
    by (vm_compute; reflexivity).
  rewrite forallb_forall in H. specialize (H (N.to_nat n)).
  rewrite N2Nat.id in H. apply H, in_seq. lia.
Qed.

Lemma strftime_is_timestamp (t : datetime) :
  datetime_ok t -> is_timestamp (strftime t) = true.
Proof.
  intros (Hy & Hm & Hd & Hh & Hmi & Hs). unfold strftime.
  pose proof (decimal_four_digits (year t) Hy) as Y.
  pose proof (pad2_two_digits (month t) ltac:(lia)) as Mo.
  pose proof (pad2_two_digits (day t) ltac:(lia)) as D.
  pose proof (pad2_two_digits (hour t) ltac:(lia)) as H.
  pose proof (pad2_two_digits (minute t) ltac:(lia)) as Mi.
  pose proof (pad2_two_digits (second t) ltac:(lia)) as S.
  destruct (decimal (year t)) as [|y1 [|y2 [|y3 [|y4 [|]]]]]; try done.
  destruct (pad2 (month t)) as [|m1 [|m2 [|]]]; try done.
  destruct (pad2 (day t)) as [|d1 [|d2 [|]]]; try done.
  destruct (pad2 (hour t)) as [|h1 [|h2 [|]]]; try done.
  destruct (pad2 (minute t)) as [|n1 [|n2 [|]]]; try done.
  destruct (pad2 (second t)) as [|s1 [|s2 [|]]]; try done.
  cbn in *.
  repeat match goal with
         | H : _ && _ = true |- _ => apply andb_true_iff in H as [? ?]
         end.
  repeat match goal with
         | H : is_digit _ = true |- _ => rewrite H; clear H
         end.
  vm_compute. reflexivity.
Qed.

Lemma paths_differ (a b : Z) : user_memory_path a <> user_history_path b.
Proof. intros H. apply (f_equal head) in H. vm_compute in H. discriminate. Qed.

Lemma well_formed_textual (l : list json) :
  Forall well_formed_entry l -> textual (JList l) = true.
Proof.
  intros H. cbn [textual]. apply forallb_forall. intros e He.
  rewrite Forall_forall in H. apply list_elem_of_In in He.
  by destruct (H e He) as (ts & s & m & -> & _).
Qed.

Lemma stored_history_ok (w : world) (user_id : Z) (l : list json) :
  history_ok w -> stored_history w user_id = Some l ->
  Forall well_formed_entry l.
Proof.
  intros Hok. unfold stored_history.
  destruct (files w !! user_history_path user_id) as [content|] eqn:E.
  - destruct (json_loads content) as [[]| |] eqn:EL; intros [= <-]; eauto.
  - by intros [= <-].
Qed.

Lemma history_ok_same (w w' : world) :
  files w' = files w -> history_ok w -> history_ok w'.
Proof. intros Hf Hok uid content l. rewrite Hf. apply Hok. Qed.

Lemma preserves_ret {A} (a : A) : preserves (mret a).
Proof. by intros w Hc Hh. Qed.

Lemma preserves_raise {A} (e : exn) : preserves (raise e : M world A).
Proof. by intros w Hc Hh. Qed.

Lemma preserves_lift {A} (r : result A) : preserves (lift r).
Proof. by intros w Hc Hh. Qed.

Lemma preserves_bind {A B} (m : M world A) (k : A -> M world B) :
  preserves m -> (forall a, preserves (k a)) -> preserves (m ≫= k).
Proof.
  intros Hm Hk w Hc Hh. rewrite bind_run.
  destruct (Hm w Hc Hh) as [Hclock Hok].
  destruct (m w) as [[a|e] w'] eqn:E; cbn [snd] in *; [|done].
  assert (Hc' : clock_ok w') by (intros n; rewrite Hclock; apply Hc).
  destruct (Hk a w' Hc' Hok) as [Hclock' Hok']. split; [congruence|done].
Qed.

Lemma preserves_load_memory (user_id : Z) : preserves (load_memory user_id).
Proof. intros w Hc Hh. by rewrite load_memory_run. Qed.

Lemma preserves_save_memory (user_id : Z) (memory : json) :
  preserves (save_memory user_id memory).
Proof.
  intros w Hc Hh. split; [done|]. intros uid content l.
  unfold save_memory, write_text, modify. cbn [snd].
  rewrite files_set_files, lookup_insert_ne by apply paths_differ. apply Hh.
Qed.

Lemma preserves_save_history (user_id : Z) (s : sender) (message : str) :
  preserves (save_history user_id (sender_label s) message).
Proof.
  intros w Hc Hh.
  pose proof (save_history_run user_id (sender_label s) message w) as Hrun.
  cbv zeta in Hrun.
  destruct (stored_history w user_id) as [l|] eqn:El.
  - rewrite Hrun. cbn [snd]. split; [done|].
    pose proof (stored_history_ok w user_id l Hh El) as Hl.
    assert (Hall : Forall well_formed_entry
                     (l ++ [history_entry (strftime (clock w (ticks w)))
                                          (sender_label s) message])).
    { apply Forall_app. split; [done|]. apply Forall_singleton.
      exists (strftime (clock w (ticks w))), s, message. split; [done|].
      apply strftime_is_timestamp, Hc. }
    intros uid content l'. rewrite files_set_files.
    change (files (ticked w)) with (files w).
    destruct (decide (user_history_path user_id = user_history_path uid))
      as [<-|Hne].
    + rewrite lookup_insert_eq. intros [= <-].
      rewrite json_loads_dumps by (by apply well_formed_textual).
      by intros [= <-].
    + rewrite lookup_insert_ne by done. apply Hh.
  - destruct Hrun as [e ->]. cbn [snd]. split; [done|].
    by apply (history_ok_same w).
Qed.

Section Handlers.

Variable deliver : str -> result unit.
Variable send_message : str -> result Response.
Variable download : PhotoSize -> result (list Byte.byte).
Variable generate_content : list Byte.byte -> str -> result Response.
Variable py_str : json -> str.

#[local] Abbreviation memory_cmd := (memory_cmd deliver).
#[local] Abbreviation remember := (remember deliver).

(** C10: a memory record that is not JSON makes [load_memory] raise the
    decoder's error, where [save_history] carries on with an empty
    history; [/memory] and [/remember key=value] then raise before they
    reply or write, and every file is left as it was. *)
Theorem corrupt_memory_propagates (update : Update) (w : world) (content : str) :
  let user_id := from_user_id update in
  files w !! user_memory_path user_id = Some content ->
  json_loads content = Malformed ->
  load_memory user_id w = (Raise (Exn JSONDecodeError []), w)
  /\ memory_cmd update w = (Raise (Exn JSONDecodeError []), w)
  /\ (contains (replace_first (lit "/remember ") [] (message_text update))
               (lit "=") = true ->
      remember update w = (Raise (Exn JSONDecodeError []), w))
  /\ (forall sender message,
        files w !! user_history_path user_id = Some content ->
        exists w', save_history user_id sender message w = (Ok tt, w')).
Proof.
  intros user_id Hfile Hbad.
  assert (Hload : load_memory user_id w = (Raise (Exn JSONDecodeError []), w)).
  { rewrite load_memory_run, Hfile. unfold loads. by rewrite Hbad. }
  repeat split.
  - exact Hload.
  - unfold Bot.memory_cmd. fold user_id. by rewrite bind_run, Hload.
  - intros Heq. unfold Bot.remember. fold user_id. rewrite Heq. cbn [negb].
    destruct (contains_split_first _ _ Heq) as [kv ->].
    rewrite bind_run. unfold lift at 1. by rewrite bind_run, Hload.
  - intros sender message Hhist.
    pose proof (save_history_run user_id sender message w) as H.
    cbv zeta in H. unfold stored_history in H. rewrite Hhist, Hbad in H. eauto.
Qed.

#[local] Abbreviation reply_text := (reply_text deliver).
#[local] Abbreviation dispatch :=
  (dispatch deliver send_message download generate_content py_str).
#[local] Abbreviation serve :=
  (serve deliver send_message download generate_content py_str).

Lemma preserves_reply_text (t : str) : preserves (reply_text t).
Proof. intros w Hc Hh. split; [done|]. by apply (history_ok_same w). Qed.

Lemma preserves_clear (update : Update) : preserves (clear deliver update).
Proof.
  unfold clear. apply preserves_bind; [|intros _; apply preserves_reply_text].
  intros w Hc Hh. split; [done|]. intros uid content l.
  unfold write_text, modify. cbn [snd]. rewrite files_set_files.
  destruct (decide (user_history_path (from_user_id update)
                    = user_history_path uid)) as [<-|Hne].
  - rewrite lookup_insert_eq. intros [= <-].
    change (json_loads (lit "[]")) with (Parsed (JList [])). by intros [= <-].
  - rewrite lookup_insert_ne by done. apply Hh.
Qed.

Ltac preserve :=
  repeat (cbv beta zeta;
          lazymatch goal with
          | |- preserves (mbind _ _) => apply preserves_bind; [|intros ?]
          | |- preserves (Bot.reply_text _ _) => apply preserves_reply_text
          | |- preserves (load_memory _) => apply preserves_load_memory
          | |- preserves (save_memory _ _) => apply preserves_save_memory
          | |- preserves (save_history _ (lit "You") _) =>
              apply (preserves_save_history _ user)
          | |- preserves (save_history _ (lit "You (image)") _) =>
              apply (preserves_save_history _ user_with_image)
          | |- preserves (save_history _ (lit "AI") _) =>
              apply (preserves_save_history _ assistant)
          | |- preserves (lift _) => apply preserves_lift
          | |- preserves (mret _) => apply preserves_ret
          end).

Lemma preserves_dispatch (h : handler) (update : Update) :
  preserves (dispatch h update).
Proof.
  destruct h; cbn [Bot.dispatch].
  - apply preserves_reply_text.
  - apply preserves_reply_text.
  - apply preserves_clear.
  - unfold Bot.memory_cmd. preserve.
  - unfold Bot.remember. case_match; preserve.
  - unfold Bot.chat, stop. case_match; preserve.
  - unfold Bot.handle_photo. preserve.
Qed.

(** C5: whatever updates the bot handles, the entries of every history
    log that decodes to a list are entries with a time stamp at second
    precision, one of the three senders and a message text, provided
    the logs were so at the start (as with no log at all); the clock is
    left as it was. *)
Theorem history_entries_well_formed (updates : list (handler * Update))
    (w : world) :
  clock_ok w -> history_ok w ->
  clock (serve updates w) = clock w /\ history_ok (serve updates w).
Proof.
  revert w. induction updates as [|[h update] updates IH]; intros w Hc Hh;
    cbn [Bot.serve]; [done|].
  destruct (preserves_dispatch h update w Hc Hh) as [Hclock Hok].
  destruct (IH (dispatch h update w).2) as [Hclock' Hok']; [|done|].
  - intros n. rewrite Hclock. apply Hc.
  - split; [congruence|done].
Qed.

End Handlers.

Lemma noon_ok : clock_ok fresh.
Proof.
  intros n. unfold datetime_ok. cbn.
  pose proof (N.mod_upper_bound (N.of_nat n) 60). lia.
Qed.

Lemma fresh_history_ok : history_ok fresh.
Proof.
  intros uid content l H. unfold fresh in H. cbn [files] in H.
  by rewrite lookup_empty in H.
Qed.

Lemma history_entries_well_formed_witness :
  let updates := [(Chat, text_update 7 (lit "hi"));
                  (HandlePhoto, photo_update 7);
                  (Clear, text_update 8 (lit "/clear"))] in
  let w := Bot.serve delivered says_hello downloaded sees_hello no_repr
             updates fresh in
  clock w = clock fresh /\ history_ok w.
Proof.
  apply (history_entries_well_formed delivered says_hello downloaded sees_hello
           no_repr _ fresh); [exact noon_ok | exact fresh_history_ok].
Defined.

(** The log after a text message and a photo. *)
Example history_after_two_updates :
  stored_history
    (Bot.serve delivered says_hello downloaded sees_hello no_repr
       [(Chat, text_update 7 (lit "hi")); (HandlePhoto, photo_update 7)]
       fresh) 7
  = Some [history_entry (lit "2025-03-09 12:00:00") (lit "You") (lit "hi");
          history_entry (lit "2025-03-09 12:00:01") (lit "AI") (lit "Hello!");
          history_entry (lit "2025-03-09 12:00:02") (lit "You (image)")
                        (lit "[Image]");
          history_entry (lit "2025-03-09 12:00:03") (lit "AI") (lit "Hello!")].
Proof. vm_compute. reflexivity. Qed.

(** C4 as stated fails: a response without any text is relayed as an
    empty reply in both flows; the specification's wording would give the
    apology. *)
Lemma empty_reply_is_relayed :
  photo_reply_text silent = []
  /\ chat_reply_text silent = Ok []
  /\ spec_normalizeChatText silent = apology
  /\ outbox (Bot.handle_photo delivered downloaded sees_nothing no_repr
               (photo_update 7) fresh).2 = [[]]
  /\ outbox (Bot.chat delivered says_nothing no_repr
               (text_update 7 (lit "hi")) fresh).2 = [[]].
Proof. vm_compute. repeat split. Qed.



Lemma corrupt_memory_propagates_witness :
  load_memory 7 corrupt = (Raise (Exn JSONDecodeError []), corrupt)
  /\ Bot.memory_cmd delivered (text_update 7 (lit "/memory")) corrupt
     = (Raise (Exn JSONDecodeError []), corrupt)
  /\ Bot.remember delivered (text_update 7 (lit "/remember color=blue")) corrupt
     = (Raise (Exn JSONDecodeError []), corrupt).
Proof.
  destruct (corrupt_memory_propagates delivered
              (text_update 7 (lit "/remember color=blue")) corrupt
              (lit "{not json")) as (H1 & H2 & H3 & _);
    [vm_compute; reflexivity | vm_compute; reflexivity |].
  split; [exact H1|]. split; [|apply H3; vm_compute; reflexivity].
  apply (corrupt_memory_propagates delivered
           (text_update 7 (lit "/memory")) corrupt (lit "{not json"));
    vm_compute; reflexivity.
Defined.

(** The command of the specification: after [/remember], [/memory]
    shows the pair. *)
Example remember_then_memory :
  outbox
    (Bot.serve delivered says_hello downloaded sees_hello no_repr
       [(Remember, text_update 7 (lit "/remember favorite_color=blue"));
        (MemoryCmd, text_update 7 (lit "/memory"))]
       fresh)
  = [[10004] ++ lit " Remembered: favorite_color = blue";
     [129504] ++ lit " Memory:" ++ [NL] ++ lit "{" ++ [NL]
     ++ lit "    " ++ quoted (lit "favorite_color") ++ lit ": "
     ++ quoted (lit "blue") ++ [NL] ++ lit "}"].
Proof. vm_compute. reflexivity. Qed.

End BotProofs.

(** ** Further behaviour of the resume service *)

Module ServiceBehaviour.

Import PyStrFacts JsonFacts Server Spec Shapes Examples ServerProofs Records
  Scenarios.

Lemma strip_blank (s : str) : blank s -> strip s = [].
Proof.
  intros H. unfold strip, strip_by.
  rewrite <- (app_nil_r s). rewrite lstrip_by_app_all by done. reflexivity.
Qed.

Lemma blank_join (pages : list str) : Forall blank pages -> blank (join [NL] pages).
Proof.
  induction 1 as [|p ps Hp Hps IH]; [constructor|].
  destruct ps as [|q ps]; [exact Hp|].
  change (join [NL] (p :: q :: ps)) with (p ++ [NL] ++ join [NL] (q :: ps)).
  apply Forall_app. split; [exact Hp|]. apply Forall_app. split; [|exact IH].
  by repeat constructor.
Qed.

Lemma replace_first_later (new a rest : str) :
  contains (a ++ lit "jso") (lit "json") = false ->
  replace_first (lit "json") new (a ++ lit "json" ++ rest) = a ++ new ++ rest.
Proof.
  induction a as [|c a IH].
  - intros _. apply (replace_first_head (lit "json") new rest).
  - change (contains ((c :: a) ++ lit "jso") (lit "json"))
      with (startswith ((c :: a) ++ lit "jso") (lit "json")
            || contains (a ++ lit "jso") (lit "json")).
    intros [Hhere Hlater]%orb_false_iff.
    change ((c :: a) ++ lit "json" ++ rest) with (c :: (a ++ lit "json" ++ rest)).
    cbn [replace_first].
    replace (startswith (c :: a ++ lit "json" ++ rest) (lit "json")) with false.
    + by rewrite IH.
    + transitivity (startswith ((c :: a) ++ lit "jso") (lit "json"));
        [by rewrite Hhere|].
      destruct a as [|c2 [|c3 [|c4 a]]]; reflexivity.
Qed.

(** X5: the text handed to the JSON parser never has white space at
    its ends, and white space around the model's reply changes
    nothing. *)
Theorem clean_output_trimmed (text : str) :
  strip (clean_output text) = clean_output text
  /\ (forall l r, blank l -> blank r ->
                  clean_output (l ++ text ++ r) = clean_output text).
Proof.
  split.
  - unfold clean_output. case_match; apply strip_by_idemp.
  - intros l r Hl Hr. unfold clean_output, strip.
    by rewrite strip_by_app_all.
Qed.

(** X6: inside a fence the leftmost [json] is removed wherever it
    stands: when no tag follows the opening fence, the first [json] of
    the document itself is cut out. *)
Theorem clean_output_cuts_first_json (a b : str) :
  contains (a ++ lit "jso") (lit "json") = false ->
  clean_output (lit "```" ++ [NL] ++ a ++ lit "json" ++ b ++ [NL] ++ lit "```")
  = strip (a ++ b).
Proof.
  intros Hfirst. unfold clean_output.
  set (doc := a ++ lit "json" ++ b).
  assert (Hstrip : strip (lit "```" ++ [NL] ++ a ++ lit "json" ++ b ++ [NL]
                          ++ lit "```")
                   = lit "```" ++ ([NL] ++ doc ++ [NL]) ++ lit "```").
  { unfold doc. rewrite <- !app_assoc. apply strip_by_fix.
    - intros c [= <-]. reflexivity.
    - intros c. rewrite !app_assoc. change (lit "```") with ([96; 96] ++ [96]).
      rewrite !app_assoc, last_snoc. intros [= <-]. reflexivity. }
  rewrite Hstrip. change (startswith _ (lit "```")) with true. cbv iota.
  unfold strip_chars. rewrite strip_by_app_all by (by repeat constructor).
  rewrite strip_by_fix.
  - unfold doc. rewrite <- !app_assoc.
    change ([NL] ++ a ++ lit "json" ++ b ++ [NL])
      with (NL :: (a ++ lit "json" ++ (b ++ [NL]))).
    cbn [replace_first]. change (startswith (NL :: _) (lit "json")) with false.
    cbv iota. rewrite replace_first_later by done. cbn [app].
    change (NL :: a ++ b ++ [NL]) with ([NL] ++ (a ++ b ++ [NL])).
    rewrite (app_assoc a b [NL]).
    apply (strip_by_app_all isspace); apply isspace_NL.
  - intros c [= <-]. reflexivity.
  - intros c. rewrite !app_assoc, last_snoc. intros [= <-]. reflexivity.
Qed.

Section Service.

Variable pdfplumber_open : bytes -> result (list (option str)).
Variable docx_Document : bytes -> result (list str).
Variable image_to_string : bytes -> result str.
Variable generate_content : list str -> result (option str).
Variables system_prompt schema_prompt : str.

#[local] Abbreviation extract_text :=
  (extract_text pdfplumber_open docx_Document image_to_string).
#[local] Abbreviation parse_resume_with_gemini :=
  (parse_resume_with_gemini generate_content system_prompt schema_prompt).
#[local] Abbreviation extract_resume :=
  (extract_resume pdfplumber_open docx_Document image_to_string
                  generate_content system_prompt schema_prompt).

Lemma parse_resume_with_gemini_run (raw_text : str) (tr : trace) :
  let contents := [system_prompt; schema_prompt; user_prompt raw_text] in
  parse_resume_with_gemini raw_text tr =
  (match generate_content contents with
   | Ok (Some text) => normalizeResumeJson text
   | Ok None =>
       Raise (Exn AttributeError
                  (lit "'NoneType' object has no attribute 'strip'"))
   | Raise e => Raise e
   end, tr ++ [GenerateContent contents]).
Proof.
  intros contents. unfold Server.parse_resume_with_gemini. fold contents.
  unfold mbind, M_bind, library.
  by destruct (generate_content contents) as [[text|]|e].
Qed.

Lemma normalizeResumeJson_returns (text : str) :
  exists v, normalizeResumeJson text = Ok v.
Proof. unfold normalizeResumeJson. destruct (loads _); eauto. Qed.



(** X3: a file routed to the PDF reader whose pages carry no text, or
    white space only, is answered with 400 and [Could not extract text];
    the model is not called. *)
Theorem extract_resume_blank_pdf (req : request) (file : FileStorage)
    (tr : trace) (pages : list (option str)) :
  field (lit "file") (files req) = Some file ->
  filename file <> [] ->
  endswith (lower (filename file)) (lit ".pdf") = true ->
  pdfplumber_open (payload file) = Ok pages ->
  Forall blank_page pages ->
  extract_resume req tr =
  (Ok (JDict [(lit "error", JStr (lit "Could not extract text"))], 400%Z),
   tr ++ [PdfOpen (payload file)]).
Proof.
  intros Hfield Hname Hpdf Hopen Hblank.
  unfold Server.extract_resume. rewrite Hfield.
  destruct (decide (filename file = [])); [done|].
  unfold try_except, mbind, M_bind. unfold Server.extract_text. rewrite Hpdf.
  rewrite extract_text_from_pdf_run, Hopen.
  assert (Hb : strip (join [NL] (map (default []) pages)) = []).
  { apply strip_blank, blank_join. apply Forall_fmap.
    eapply Forall_impl; [exact Hblank|]. by intros p Hp. }
  by rewrite Hb.
Qed.

(** X4: when the model call raises, or its response carries no text,
    the route answers with status 500 and the message as details. *)
Theorem extract_resume_model_error (req : request) (file : FileStorage)
    (tr tr' : trace) (raw_text : str) :
  let contents := [system_prompt; schema_prompt; user_prompt raw_text] in
  let server_error details :=
    (Ok (JDict [(lit "error", JStr (lit "Server error"));
                (lit "details", JStr details)], 500%Z),
     tr' ++ [GenerateContent contents; Print (lit "Error: " ++ details)]) in
  field (lit "file") (files req) = Some file ->
  filename file <> [] ->
  extract_text file tr = (Ok raw_text, tr') ->
  raw_text <> [] ->
  (forall e, generate_content contents = Raise e ->
             extract_resume req tr = server_error (exn_str e))
  /\ (generate_content contents = Ok None ->
      extract_resume req tr =
      server_error (lit "'NoneType' object has no attribute 'strip'")).
Proof.
  intros contents server_error Hfield Hname Hread Htext.
  assert (Hrun : extract_resume req tr =
                 match generate_content contents with
                 | Ok (Some text) =>
                     (match normalizeResumeJson text with
                      | Ok v => Ok (v, 200%Z)
                      | Raise e => Raise e
                      end, tr' ++ [GenerateContent contents])
                 | Ok None =>
                     server_error (lit "'NoneType' object has no attribute 'strip'")
                 | Raise e => server_error (exn_str e)
                 end).
  { unfold Server.extract_resume. rewrite Hfield.
    destruct (decide (filename file = [])); [done|].
    unfold try_except, mbind, M_bind. rewrite Hread.
    rewrite (extract_text_trimmed _ _ _ file tr tr' raw_text Hread).
    destruct raw_text as [|c u]; [done|].
    rewrite parse_resume_with_gemini_run. cbv zeta. fold contents.
    destruct (generate_content contents) as [[text|]|e].
    - destruct (normalizeResumeJson_returns text) as [v ->]. reflexivity.
    - unfold server_error, library, mret, M_ret. by rewrite <- app_assoc.
    - unfold server_error, library, mret, M_ret. by rewrite <- app_assoc. }
  split.
  - intros e He. by rewrite Hrun, He.
  - intros He. by rewrite Hrun, He.
Qed.

End Service.


Lemma extract_resume_blank_pdf_witness :
  Server.extract_resume scanned_pdf jane_docx blank_image jane_model
    role_prompt format_prompt (upload (lit "scan.PDF")) []
  = (Ok (JDict [(lit "error", JStr (lit "Could not extract text"))], 400%Z),
     [] ++ [PdfOpen []]).
Proof.
  apply (extract_resume_blank_pdf scanned_pdf jane_docx blank_image jane_model
           role_prompt format_prompt (upload (lit "scan.PDF"))
           {| filename := lit "scan.PDF"; payload := [] |} []
           [None; Some (lit "  " ++ [NL] ++ lit " ")]);
    [reflexivity | discriminate | reflexivity | reflexivity |].
  repeat constructor.
Defined.

Lemma extract_resume_model_error_witness :
  Server.extract_resume unreadable_pdf jane_docx blank_image failing_model
    role_prompt format_prompt (upload (lit "jane.docx")) []
  = (Ok (JDict [(lit "error", JStr (lit "Server error"));
                (lit "details", JStr (lit "503 UNAVAILABLE"))], 500%Z),
     [DocxOpen []]
     ++ [GenerateContent
           [role_prompt; format_prompt;
            user_prompt (lit "Jane Doe" ++ [NL] ++ lit "jane@example.com")];
         Print (lit "Error: " ++ lit "503 UNAVAILABLE")])
  /\ Server.extract_resume unreadable_pdf jane_docx blank_image mute_model
       role_prompt format_prompt (upload (lit "jane.docx")) []
     = (Ok (JDict [(lit "error", JStr (lit "Server error"));
                   (lit "details",
                    JStr (lit "'NoneType' object has no attribute 'strip'"))],
            500%Z),
        [DocxOpen []]
        ++ [GenerateContent
              [role_prompt; format_prompt;
               user_prompt (lit "Jane Doe" ++ [NL] ++ lit "jane@example.com")];
            Print (lit "Error: "
                   ++ lit "'NoneType' object has no attribute 'strip'")]).
Proof.
  split.
  - apply (proj1 (extract_resume_model_error unreadable_pdf jane_docx
                    blank_image failing_model role_prompt format_prompt
                    (upload (lit "jane.docx"))
                    {| filename := lit "jane.docx"; payload := [] |}
                    [] [DocxOpen []]
                    (lit "Jane Doe" ++ [NL] ++ lit "jane@example.com")
                    eq_refl ltac:(discriminate) eq_refl ltac:(discriminate))
                 (Exn LibraryError (lit "503 UNAVAILABLE"))).
    reflexivity.
  - apply (proj2 (extract_resume_model_error unreadable_pdf jane_docx
                    blank_image mute_model role_prompt format_prompt
                    (upload (lit "jane.docx"))
                    {| filename := lit "jane.docx"; payload := [] |}
                    [] [DocxOpen []]
                    (lit "Jane Doe" ++ [NL] ++ lit "jane@example.com")
                    eq_refl ltac:(discriminate) eq_refl ltac:(discriminate))).
    reflexivity.
Defined.

Lemma clean_output_trimmed_witness :
  clean_output ([NL] ++ fenced jane_json ++ lit "  ")
  = clean_output (fenced jane_json).
Proof.
  apply (proj2 (clean_output_trimmed (fenced jane_json)));
    unfold blank; repeat constructor.
Defined.

Lemma clean_output_cuts_first_json_witness :
  clean_output (lit "```" ++ [NL] ++ format_before ++ lit "json"
                ++ format_after ++ [NL] ++ lit "```")
  = strip (format_before ++ format_after).
Proof.
  apply (clean_output_cuts_first_json format_before format_after).
  vm_compute. reflexivity.
Defined.

End ServiceBehaviour.

(** ** Further behaviour of the chat bot *)

Module BotBehaviour.

Import PyStrFacts JsonFacts Bot Spec Shapes Examples BotProofs Records
  Scenarios.

(** *** Paths *)

Lemma lit_inj (s t : string) : lit s = lit t -> s = t.
Proof.
  unfold lit. intros H.
  rewrite <- (String.string_of_list_ascii_of_string s),
          <- (String.string_of_list_ascii_of_string t).
  f_equal. revert H.
  generalize (String.list_ascii_of_string s) (String.list_ascii_of_string t).
  induction l as [|a l IH]; intros [|b l']; cbn; try done.
  intros [= Hab Hl]. f_equal; [|by apply IH].
  by rewrite <- (Ascii.ascii_N_embedding a), <- (Ascii.ascii_N_embedding b), Hab.
Qed.

Lemma to_int_nonnil (z : Z) :
  Z.to_int z <> Decimal.Pos Decimal.Nil /\ Z.to_int z <> Decimal.Neg Decimal.Nil.
Proof.
  destruct z as [|p|p]; cbn; split; try discriminate;
    intros [= H]; by apply DecimalPos.Unsigned.to_uint_nonnil in H.
Qed.

Lemma str_of_int_inj (a b : Z) : str_of_int a = str_of_int b -> a = b.
Proof.
  unfold str_of_int. intros H%lit_inj. apply DecimalZ.to_int_inj.
  apply (f_equal NilZero.int_of_string) in H.
  rewrite !NilZero.isi in H by apply to_int_nonnil. congruence.
Qed.

Lemma user_history_path_inj (a b : Z) :
  user_history_path a = user_history_path b -> a = b.
Proof.
  unfold user_history_path. intros H%app_inv_head%app_inv_tail.
  by apply str_of_int_inj.
Qed.

Lemma user_memory_path_inj (a b : Z) :
  user_memory_path a = user_memory_path b -> a = b.
Proof.
  unfold user_memory_path. intros H%app_inv_head%app_inv_tail.
  by apply str_of_int_inj.
Qed.

(** *** What a computation writes *)

Lemma touches_ret {A} paths (a : A) : touches paths (mret a).
Proof. by intros w path _. Qed.

Lemma touches_lift {A} paths (r : result A) : touches paths (lift r).
Proof. by intros w path _. Qed.

Lemma touches_bind {A B} paths (m : M world A) (k : A -> M world B) :
  touches paths m -> (forall a, touches paths (k a)) -> touches paths (m ≫= k).
Proof.
  intros Hm Hk w path Hp. rewrite bind_run. specialize (Hm w path Hp).
  destruct (m w) as [[a|e] w1]; cbn [snd] in *; [|done].
  by rewrite (Hk a w1 path Hp).
Qed.

Lemma touches_load_memory paths (user_id : Z) : touches paths (load_memory user_id).
Proof. intros w path _. by rewrite load_memory_run. Qed.

Lemma touches_write_text paths (p content : str) :
  p ∈ paths -> touches paths (write_text p content).
Proof.
  intros Hin w path Hp. unfold write_text, modify. cbn [snd].
  rewrite files_set_files, lookup_insert_ne; [done|].
  intros Heq. apply Hp. by rewrite <- Heq.
Qed.

Lemma touches_save_history paths (user_id : Z) (sender message : str) :
  user_history_path user_id ∈ paths ->
  touches paths (save_history user_id sender message).
Proof.
  intros Hin w path Hp.
  pose proof (save_history_run user_id sender message w) as Hrun.
  cbv zeta in Hrun. destruct (stored_history w user_id).
  - rewrite Hrun. cbn [snd]. rewrite files_set_files, lookup_insert_ne; [done|].
    intros Heq. apply Hp. by rewrite <- Heq.
  - by destruct Hrun as [e ->].
Qed.



(** *** Dicts *)









Section Handlers.

Variable deliver : str -> result unit.
Variable send_message : str -> result Response.
Variable download : PhotoSize -> result (list Byte.byte).
Variable generate_content : list Byte.byte -> str -> result Response.
Variable py_str : json -> str.

#[local] Abbreviation reply_text := (reply_text deliver).
#[local] Abbreviation clear := (clear deliver).
#[local] Abbreviation memory_cmd := (memory_cmd deliver).
#[local] Abbreviation remember := (remember deliver).
#[local] Abbreviation chat := (chat deliver send_message py_str).
#[local] Abbreviation handle_photo :=
  (handle_photo deliver download generate_content py_str).
#[local] Abbreviation dispatch :=
  (dispatch deliver send_message download generate_content py_str).

Lemma reply_text_run (t : str) (w : world) :
  reply_text t w = (deliver t, replied t w).
Proof. reflexivity. Qed.

Lemma touches_reply_text paths (t : str) : touches paths (reply_text t).
Proof. by intros w path _. Qed.

Ltac frame :=
  repeat (cbv beta zeta;
          lazymatch goal with
          | |- touches _ (mbind _ _) => apply touches_bind; [|intros ?]
          | |- touches _ (Bot.reply_text _ _) => apply touches_reply_text
          | |- touches _ (load_memory _) => apply touches_load_memory
          | |- touches _ (save_memory _ _) =>
              apply touches_write_text; set_solver
          | |- touches _ (write_text _ _) =>
              apply touches_write_text; set_solver
          | |- touches _ (save_history _ _ _) =>
              apply touches_save_history; set_solver
          | |- touches _ (lift _) => apply touches_lift
          | |- touches _ (mret _) => apply touches_ret
          end).

Lemma dispatch_touches (h : handler) (update : Update) :
  touches (match h with
           | Remember => [user_memory_path (from_user_id update)]
           | _ => [user_history_path (from_user_id update)]
           end) (dispatch h update).
Proof.
  destruct h; cbn [Bot.dispatch].
  - apply touches_reply_text.
  - apply touches_reply_text.
  - unfold Bot.clear. frame.
  - unfold Bot.memory_cmd. frame.
  - unfold Bot.remember. case_match; frame.
  - unfold Bot.chat, stop. case_match; frame.
  - unfold Bot.handle_photo. frame.
Qed.

(** X7: a handler only writes the records of the user who sent the
    update: the memory and the history of every other user are left as
    they were, whether the handler returns or raises. *)
Theorem handlers_keep_other_users (h : handler) (update : Update) (w : world)
    (other : Z) :
  other <> from_user_id update ->
  files (dispatch h update w).2 !! user_memory_path other
  = files w !! user_memory_path other
  /\ files (dispatch h update w).2 !! user_history_path other
     = files w !! user_history_path other.
Proof.
  intros Hother. pose proof (dispatch_touches h update w) as H.
  split; apply H; destruct h;
    rewrite list_elem_of_singleton;
    first [ by intros ?%user_memory_path_inj
          | by intros ?%user_history_path_inj
          | apply paths_differ
          | intros Heq; symmetry in Heq; by apply paths_differ in Heq ].
Qed.

(** X8: only [/remember] writes a memory record: every other handler
    leaves the memory of every user as it was. *)
Theorem only_remember_writes_memory (h : handler) (update : Update) (w : world)
    (user_id : Z) :
  h <> Remember ->
  files (dispatch h update w).2 !! user_memory_path user_id
  = files w !! user_memory_path user_id.
Proof.
  intros Hh. apply (dispatch_touches h update w).
  destruct h; try done; rewrite list_elem_of_singleton; apply paths_differ.
Qed.






Lemma touches_undelivered {B} paths (t : str) (k : unit -> M world B) :
  transport_down deliver -> touches paths (reply_text t ≫= k).
Proof.
  intros Hdown w path _. rewrite bind_run, reply_text_run.
  by destruct (Hdown t) as [e ->].
Qed.

(** X14: a reply that the transport does not deliver is not logged:
    with the transport down, the text flow and the image flow leave
    every file as it was. *)
Theorem undelivered_exchange_not_logged (update : Update) (w : world) :
  transport_down deliver ->
  files (chat update w).2 = files w
  /\ files (handle_photo update w).2 = files w.
Proof.
  intros Hdown.
  assert (Hchat : touches [] (chat update)).
  { unfold Bot.chat, stop. case_match; [apply touches_reply_text|].
    cbv zeta. apply touches_bind; [apply touches_load_memory|intros ?].
    apply touches_bind; [apply touches_lift|intros ?].
    apply touches_bind; [apply touches_lift|intros ?].
    apply touches_bind; [apply touches_lift|intros ?].
    by apply touches_undelivered. }
  assert (Hphoto : touches [] (handle_photo update)).
  { unfold Bot.handle_photo. cbv zeta.
    apply touches_bind; [apply touches_load_memory|intros ?].
    apply touches_bind; [apply touches_lift|intros ?].
    apply touches_bind; [apply touches_lift|intros ?].
    apply touches_bind; [apply touches_lift|intros ?].
    apply touches_bind; [apply touches_lift|intros ?].
    by apply touches_undelivered. }
  split; apply map_eq; intros path; [apply Hchat | apply Hphoto];
    apply not_elem_of_nil.
Qed.


End Handlers.

(** X16: distinct users have distinct records: the paths of two users'
    memories differ, so do the paths of their histories, and no memory
    has the path of a history. *)
Theorem user_paths_distinct (a b : Z) :
  (user_memory_path a = user_memory_path b -> a = b)
  /\ (user_history_path a = user_history_path b -> a = b)
  /\ user_memory_path a <> user_history_path b.
Proof.
  split; [apply user_memory_path_inj|].
  split; [apply user_history_path_inj | apply paths_differ].
Qed.

Lemma user_paths_distinct_witness :
  user_memory_path 7 <> user_history_path 7.
Proof. apply (proj2 (proj2 (user_paths_distinct 7 7))). Defined.

Lemma handlers_keep_other_users_witness :
  let w := (Bot.dispatch delivered says_hello downloaded sees_hello no_repr
              Chat (text_update 7 (lit "hi")) misshapen).2 in
  files w !! user_memory_path 8 = files misshapen !! user_memory_path 8
  /\ files w !! user_history_path 8 = files misshapen !! user_history_path 8.
Proof.
  apply (handlers_keep_other_users delivered says_hello downloaded sees_hello
           no_repr Chat (text_update 7 (lit "hi")) misshapen 8).
  discriminate.
Defined.

Lemma only_remember_writes_memory_witness :
  files (Bot.dispatch delivered says_hello downloaded sees_hello no_repr
           Clear (text_update 7 (lit "/clear")) misshapen).2
    !! user_memory_path 7
  = files misshapen !! user_memory_path 7.
Proof.
  apply (only_remember_writes_memory delivered says_hello downloaded sees_hello
           no_repr Clear (text_update 7 (lit "/clear")) misshapen 7).
  discriminate.
Defined.





Lemma offline_is_down : transport_down offline.
Proof. intros t. by eexists. Qed.

Lemma undelivered_exchange_not_logged_witness :
  files (Bot.chat offline says_hello no_repr (text_update 7 (lit "hi")) fresh).2
  = files fresh
  /\ files (Bot.handle_photo offline downloaded sees_hello no_repr
              (photo_update 7) fresh).2 = files fresh.
Proof.
  split.
  - apply (proj1 (undelivered_exchange_not_logged offline says_hello
                    downloaded sees_hello no_repr (text_update 7 (lit "hi"))
                    fresh offline_is_down)).
  - apply (proj2 (undelivered_exchange_not_logged offline says_hello
                    downloaded sees_hello no_repr (photo_update 7) fresh
                    offline_is_down)).
Defined.


End BotBehaviour.
